(** * The proxyd frontend: backend registry, discovery watcher, bootstrap
    prober and connection proxy

    A shallow embedding of [package frontend] (the reverse proxy that sits in
    front of the Kubernetes API servers) and the properties of it that the
    design document states.

    Conventions of the embedding:
    - a [uint32] is a [Z] in [0, 2^32) and its wrap-around is written out;
    - a [*backend.Backend] is an address into [objects], the part of the Go
      heap that holds the backends allocated by [AddBackend]; the map
      [backends] and the field [current] hold such addresses, so that a
      pointer kept in [current] outlives the deletion of its map entry, as it
      does in Go;
    - [for _, b := range r.backends] visits the entries in an order the Go
      runtime chooses afresh on every loop; the order is an explicit argument
      [order] (the keys, as visited) and [ranges] says that it is an
      enumeration of the map;
    - every method that takes [r.mux] is one atomic state transformer;
    - log output and the closing of the probe connections of the bootstrap
      tasks are not modelled. *)

From Stdlib Require Import ZArith Lia.
From stdpp Require Import gmap strings list fin_maps pretty.

Open Scope string_scope.
Open Scope Z_scope.

(** ** Data model *)

Module backend.

(** Modelled from the spec: the declaration of [backend.Backend] (package
    [proxyd/internal/backend]) is not part of the sources at hand.  The
    spec describes a backend as an identifier, a network address and an
    unsigned live connection count; the composite literal in [AddBackend]
    names the three fields and [setCurrent] compares [Connections] with a
    [uint32]. *)
Record Backend : Type := mkBackend {
  UID : string;
  Addr : string;
  Connections : Z
}.

End backend.

Import backend.

(** [math.MaxUint32] *)
Definition MaxUint32 : Z := 4294967295.

(** [x++] and [x--] on a [uint32]. *)
Definition uint32_incr (x : Z) : Z := (x + 1) mod 2 ^ 32.
Definition uint32_decr (x : Z) : Z := (x - 1) mod 2 ^ 32.

(** Addresses of backend objects. *)
Abbreviation loc := nat (only parsing).

(** The context created in [Watch] by [context.WithCancel]: [ctxDone] says
    whether its [Done] channel is closed.  [cancelCalls] counts the calls
    of its cancel function and [doneCloses] the times the [Done] channel
    was closed; both are ghost counters. *)
Record Context : Type := mkContext {
  ctxDone : bool;
  cancelCalls : nat;
  doneCloses : nat
}.

(** [context.CancelFunc]: the first call closes [Done]; "after the first
    call, subsequent calls to a CancelFunc do nothing". *)
Definition cancel (c : Context) : Context :=
  {| ctxDone := true;
     cancelCalls := S (cancelCalls c);
     doneCloses := if ctxDone c then doneCloses c else S (doneCloses c) |}.

Definition background : Context :=
  {| ctxDone := false; cancelCalls := 0; doneCloses := 0 |}.

(** [type ReverseProxy struct].  [endpoints] is [None] for the nil slice.
    [bootstrapCtx] is the context that the closure stored in
    [cancelBootstrap] cancels.  [Config] and [mux] carry no state of
    interest. *)
Record ReverseProxy : Type := mkReverseProxy {
  ConnectTimeout : Z;
  current : option loc;
  backends : gmap string loc;
  endpoints : option (list string);
  bootstrapCtx : Context;
  objects : list Backend
}.

Definition set_current (c : option loc) (r : ReverseProxy) : ReverseProxy :=
  {| ConnectTimeout := ConnectTimeout r; current := c;
     backends := backends r; endpoints := endpoints r;
     bootstrapCtx := bootstrapCtx r; objects := objects r |}.

Definition set_backends (m : gmap string loc) (r : ReverseProxy) : ReverseProxy :=
  {| ConnectTimeout := ConnectTimeout r; current := current r;
     backends := m; endpoints := endpoints r;
     bootstrapCtx := bootstrapCtx r; objects := objects r |}.

Definition set_endpoints (e : option (list string)) (r : ReverseProxy) : ReverseProxy :=
  {| ConnectTimeout := ConnectTimeout r; current := current r;
     backends := backends r; endpoints := e;
     bootstrapCtx := bootstrapCtx r; objects := objects r |}.

Definition set_bootstrapCtx (c : Context) (r : ReverseProxy) : ReverseProxy :=
  {| ConnectTimeout := ConnectTimeout r; current := current r;
     backends := backends r; endpoints := endpoints r;
     bootstrapCtx := c; objects := objects r |}.

Definition set_objects (h : list Backend) (r : ReverseProxy) : ReverseProxy :=
  {| ConnectTimeout := ConnectTimeout r; current := current r;
     backends := backends r; endpoints := endpoints r;
     bootstrapCtx := bootstrapCtx r; objects := h |}.

(** [NewReverseProxy], after [tlsConfig] succeeded, with the context that
    [Watch] creates before it starts the bootstrap tasks and the
    informer. *)
Definition NewReverseProxy (eps : option (list string)) : ReverseProxy :=
  {| ConnectTimeout := 100; current := None; backends := ∅;
     endpoints := eps; bootstrapCtx := background; objects := [] |}.

(** ** The backend registry *)

(** [r.backends[uid]] followed by the dereference of the pointer. *)
Definition registered (r : ReverseProxy) (uid : string) : option Backend :=
  backends r !! uid ≫= λ l, objects r !! l.

(** The body of the loop of [setCurrent] for the entry of key [uid]:
    [acc] is the pair of the local [least] and of [r.current]. *)
Definition setCurrent_body (r : ReverseProxy) (acc : Z * option loc)
    (uid : string) : Z * option loc :=
  match backends r !! uid with
  | Some l =>
      match objects r !! l with
      | Some b =>
          if (Connections b =? 0) || (Connections b <? acc.1)
          then (Connections b, Some l)
          else acc
      | None => acc
      end
  | None => acc
  end.

Definition setCurrent (order : list string) (r : ReverseProxy) : ReverseProxy :=
  set_current (foldl (setCurrent_body r) (MaxUint32, current r) order).2 r.

(** [order] enumerates the keys of [r.backends]: each key once. *)
Definition ranges (order : list string) (r : ReverseProxy) : Prop :=
  order ≡ₚ (map_to_list (backends r)).*1.

Definition AddBackend (order : list string) (uid addr : string)
    (r : ReverseProxy) : ReverseProxy * bool :=
  match backends r !! uid with
  | Some _ => (r, false)
  | None =>
      let l := length (objects r) in
      let r1 := set_objects (objects r ++ [mkBackend uid addr 0]) r in
      let r2 := set_backends (<[uid := l]> (backends r)) r1 in
      (setCurrent order r2, true)
  end.

Definition DeleteBackend (order : list string) (uid : string)
    (r : ReverseProxy) : ReverseProxy * bool :=
  match backends r !! uid with
  | Some _ => (setCurrent order (set_backends (delete uid (backends r)) r), true)
  | None => (setCurrent order r, false)
  end.

(** [GetBackend] returns the pointer [r.current]; [deref] reads the object
    it points to. *)
Definition GetBackend (r : ReverseProxy) : option loc := current r.

Definition deref (r : ReverseProxy) (p : loc) : option Backend := objects r !! p.

Definition with_connections (c : Z) (b : Backend) : Backend :=
  mkBackend (UID b) (Addr b) c.

Definition IncrementBackend (order : list string) (uid : string)
    (r : ReverseProxy) : ReverseProxy :=
  match backends r !! uid with
  | None => r
  | Some l =>
      match objects r !! l with
      | None => r
      | Some b =>
          setCurrent order
            (set_objects (<[l := with_connections (uint32_incr (Connections b)) b]> (objects r)) r)
      end
  end.

Definition DecrementBackend (order : list string) (uid : string)
    (r : ReverseProxy) : ReverseProxy :=
  match backends r !! uid with
  | None => r
  | Some l =>
      match objects r !! l with
      | None => r
      | Some b =>
          if Connections b =? 0 then r
          else
            setCurrent order
              (set_objects (<[l := with_connections (uint32_decr (Connections b)) b]> (objects r)) r)
      end
  end.

(** The four mutations of the registry, and runs of them.  A run pairs
    every operation with the order in which its [setCurrent] visits the
    map. *)
Inductive Op : Type :=
  | OpAdd (uid addr : string)
  | OpDelete (uid : string)
  | OpIncrement (uid : string)
  | OpDecrement (uid : string).

Definition exec (order : list string) (op : Op) (r : ReverseProxy) : ReverseProxy :=
  match op with
  | OpAdd uid addr => (AddBackend order uid addr r).1
  | OpDelete uid => (DeleteBackend order uid r).1
  | OpIncrement uid => IncrementBackend order uid r
  | OpDecrement uid => DecrementBackend order uid r
  end.

Fixpoint run (s : list (Op * list string)) (r : ReverseProxy) : ReverseProxy :=
  match s with
  | [] => r
  | (op, order) :: s' => run s' (exec order op r)
  end.

(** Every order of the run enumerates the map it is used on ([setCurrent]
    leaves the map as it is, so this is the map after the operation). *)
Fixpoint ranges_all (s : list (Op * list string)) (r : ReverseProxy) : Prop :=
  match s with
  | [] => True
  | (op, order) :: s' => ranges order (exec order op r) ∧ ranges_all s' (exec order op r)
  end.

(** ** Well-formed states

    What Go guarantees of the pointers and of [uint32], and what
    [AddBackend] guarantees of the objects it allocates. *)
Record wf (r : ReverseProxy) : Prop := mkWf {
  wf_backends : ∀ uid l, backends r !! uid = Some l → (l < length (objects r))%nat;
  wf_counts : ∀ l b, objects r !! l = Some b → 0 ≤ Connections b ≤ MaxUint32;
  wf_current : ∀ l, current r = Some l → (l < length (objects r))%nat;
  wf_inj : ∀ u1 u2 l, backends r !! u1 = Some l → backends r !! u2 = Some l → u1 = u2
}.

(** [least] is a lower bound of the counts visited so far, and [r.current]
    was assigned a visited backend with that count unless no visited
    backend passed the test of the [switch]. *)
Definition loop_inv (r : ReverseProxy) (c0 : option loc)
    (visited : list string) (acc : Z * option loc) : Prop :=
  (∀ k b, k ∈ visited → registered r k = Some b → acc.1 ≤ Connections b)
  ∧ ((acc = (MaxUint32, c0)
      ∧ ∀ k b, k ∈ visited → registered r k = Some b → Connections b = MaxUint32)
     ∨ (∃ k l b, k ∈ visited ∧ backends r !! k = Some l ∧ objects r !! l = Some b
                 ∧ acc = (Connections b, Some l))).

(** The registry holds a backend that the test of [setCurrent] accepts on
    the first visit. *)
Definition selectable (r : ReverseProxy) : Prop :=
  ∃ k b, registered r k = Some b ∧ Connections b < MaxUint32.

(** [p] points at a registered backend whose count is minimal. *)
Definition least_loaded (r : ReverseProxy) (p : loc) : Prop :=
  ∃ k b, backends r !! k = Some p ∧ objects r !! p = Some b
         ∧ ∀ k' b', registered r k' = Some b' → Connections b ≤ Connections b'.

Definition selects_least (r : ReverseProxy) : Prop :=
  selectable r → ∃ p, GetBackend r = Some p ∧ least_loaded r p.

(** The state without the cached selection. *)
Definition forget (r : ReverseProxy) : ReverseProxy := set_current None r.


(** ** The cutover from bootstrap probing to discovery *)

(** [stopBootstrapBackends].  The handlers that call it run under [Watch],
    which stores the cancel function in [r.cancelBootstrap] before it
    starts the informer. *)
Definition stopBootstrapBackends (r : ReverseProxy) : ReverseProxy :=
  match endpoints r with
  | Some _ => set_endpoints None (set_bootstrapCtx (cancel (bootstrapCtx r)) r)
  | None => r
  end.

(** [stopBootstrapBackends] takes no lock.  To follow firings that overlap,
    the function is cut into its three statements: the test of
    [r.endpoints], the call of [r.cancelBootstrap], the assignment of nil. *)
Inductive FirePc : Type := AtCheck | AtCancel | AtClear | Finished.

Definition fire_step (pc : FirePc) (r : ReverseProxy) : FirePc * ReverseProxy :=
  match pc with
  | AtCheck => (match endpoints r with Some _ => AtCancel | None => Finished end, r)
  | AtCancel => (AtClear, set_bootstrapCtx (cancel (bootstrapCtx r)) r)
  | AtClear => (Finished, set_endpoints None r)
  | Finished => (Finished, r)
  end.

(** A schedule names, step by step, the firing that executes its next
    statement. *)
Definition sched_step (cfg : list FirePc * ReverseProxy) (t : nat)
    : list FirePc * ReverseProxy :=
  match cfg.1 !! t with
  | Some pc => let '(pc', r') := fire_step pc cfg.2 in (<[t := pc']> cfg.1, r')
  | None => cfg
  end.

Definition interleave (sched : list nat) (cfg : list FirePc * ReverseProxy)
    : list FirePc * ReverseProxy :=
  foldl sched_step cfg sched.

(** [n] firings, none of which has started. *)
Definition firings (n : nat) (r : ReverseProxy) : list FirePc * ReverseProxy :=
  (replicate n AtCheck, r).

Definition all_finished (cfg : list FirePc * ReverseProxy) : Prop :=
  ∀ t pc, cfg.1 !! t = Some pc → pc = Finished.

(** The statements that a firing at [pc] has still to execute, at most. *)
Definition steps_left (pc : FirePc) : nat :=
  match pc with
  | AtCheck => 3
  | AtCancel => 2
  | AtClear => 1
  | Finished => 0
  end.

(** The two states hold the same registry and the same selection. *)
Definition same_registry (r r' : ReverseProxy) : Prop :=
  ConnectTimeout r = ConnectTimeout r' ∧ current r = current r'
  ∧ backends r = backends r' ∧ objects r = objects r'.

(** What holds of every configuration that overlapping firings reach from
    a proxy [r0] whose endpoints are set and whose context is live. *)
Record fire_inv (r0 : ReverseProxy) (cfg : list FirePc * ReverseProxy) : Prop := mkFireInv {
  fire_registry : same_registry r0 cfg.2;
  fire_finished : ∀ t, cfg.1 !! t = Some Finished → endpoints cfg.2 = None;
  fire_clearing : ∀ t, cfg.1 !! t = Some AtClear → ctxDone (bootstrapCtx cfg.2) = true;
  fire_cleared : endpoints cfg.2 = None → ctxDone (bootstrapCtx cfg.2) = true;
  fire_closes : doneCloses (bootstrapCtx cfg.2)
                = if ctxDone (bootstrapCtx cfg.2) then S (doneCloses (bootstrapCtx r0))
                  else doneCloses (bootstrapCtx r0)
}.

(** ** The discovery watcher *)

(** The fields of [k8s.io/api/core/v1.Pod] that the handlers read. *)
Module v1.

Record ContainerStatus : Type := mkContainerStatus { Ready : bool }.

Record PodStatus : Type := mkPodStatus {
  PodIP : string;
  ContainerStatuses : list ContainerStatus
}.

Record Pod : Type := mkPod {
  Name : string;
  UID : string;
  Labels : gmap string string;
  Status : PodStatus
}.

End v1.

Definition isAPIServer (pod : v1.Pod) : bool :=
  if match v1.Labels pod !! "component" with
     | Some component => String.eqb component "kube-apiserver"
     | None => false
     end
  then true
  else if match v1.Labels pod !! "k8s-app" with
          | Some k8sApp => String.eqb k8sApp "self-hosted-kube-apiserver"
          | None => false
          end
  then true
  else false.

(** [for _, status := range ...ContainerStatuses { if !status.Ready {...; return} }]:
    does the loop reach its [return]? *)
Fixpoint anyNotReady (statuses : list v1.ContainerStatus) : bool :=
  match statuses with
  | [] => false
  | status :: rest => if negb (v1.Ready status) then true else anyNotReady rest
  end.

Definition AddFunc (order : list string) (pod : v1.Pod) (r : ReverseProxy) : ReverseProxy :=
  if negb (isAPIServer pod) then r
  else if String.eqb (v1.PodIP (v1.Status pod)) "" then r
  else if anyNotReady (v1.ContainerStatuses (v1.Status pod)) then r
  else stopBootstrapBackends (AddBackend order (v1.UID pod) (v1.PodIP (v1.Status pod)) r).1.

Definition UpdateFunc (order : list string) (old new : v1.Pod) (r : ReverseProxy)
    : ReverseProxy :=
  if negb (isAPIServer old) then r
  else if anyNotReady (v1.ContainerStatuses (v1.Status new))
  then (DeleteBackend order (v1.PodIP (v1.Status old)) r).1
  else if String.eqb (v1.PodIP (v1.Status old)) ""
          && negb (String.eqb (v1.PodIP (v1.Status new)) "")
  then stopBootstrapBackends (AddBackend order (v1.UID new) (v1.PodIP (v1.Status new)) r).1
  else r.

Definition DeleteFunc (order : list string) (pod : v1.Pod) (r : ReverseProxy) : ReverseProxy :=
  if negb (isAPIServer pod) then r
  else (DeleteBackend order (v1.UID pod) r).1.

(** The notifications of the informer and their dispatch to the three
    [cache.ResourceEventHandlerFuncs]. *)
Inductive PodEvent : Type :=
  | Added (pod : v1.Pod)
  | Updated (old new : v1.Pod)
  | Deleted (pod : v1.Pod).

Definition handle (order : list string) (ev : PodEvent) (r : ReverseProxy) : ReverseProxy :=
  match ev with
  | Added pod => AddFunc order pod r
  | Updated old new => UpdateFunc order old new r
  | Deleted pod => DeleteFunc order pod r
  end.

(** The handlers run one after the other, on the goroutine of the
    informer: a sequence of notifications, each with the order of the
    [setCurrent] it may cause. *)
Fixpoint handle_all (evs : list (PodEvent * list string)) (r : ReverseProxy) : ReverseProxy :=
  match evs with
  | [] => r
  | (ev, order) :: rest => handle_all rest (handle order ev r)
  end.

(** The pod object whose labels the handler of the event tests: for an
    update, the previous state of the pod. *)
Definition tested_pod (ev : PodEvent) : v1.Pod :=
  match ev with
  | Added pod => pod
  | Updated old _ => old
  | Deleted pod => pod
  end.

Definition carries (pod : v1.Pod) (key value : string) : Prop :=
  v1.Labels pod !! key = Some value.

(** ** The bootstrap prober *)

(** What the [select] of a bootstrap task receives: a tick, with the
    outcome of the [net.Dial] that follows it, or the closed [Done]
    channel of the context. *)
Inductive Select : Type :=
  | TickerC (dialed : bool)
  | CtxDone.

Inductive Loop : Type := Continue | Return.

(** A case of the [select] can be taken when its channel is ready. *)
Definition ready (r : ReverseProxy) (sel : Select) : bool :=
  match sel with
  | TickerC _ => true
  | CtxDone => ctxDone (bootstrapCtx r)
  end.

(** [fmt.Sprintf("bootstrap-%d", i)] *)
Definition bootstrapUID (i : nat) : string := "bootstrap-" +:+ pretty i.

(** One iteration of the loop of the task of endpoint [e], of index [i]. *)
Definition bootstrapIteration (order : list string) (i : nat) (e : string)
    (sel : Select) (r : ReverseProxy) : ReverseProxy * Loop :=
  let uid := bootstrapUID i in
  match sel with
  | TickerC false => ((DeleteBackend order uid r).1, Continue)
  | TickerC true => ((AddBackend order uid e r).1, Continue)
  | CtxDone => ((DeleteBackend order uid r).1, Return)
  end.

(** The task, along a script of what its [select] receives. *)
Fixpoint bootstrapTask (i : nat) (e : string) (script : list (Select * list string))
    (r : ReverseProxy) : ReverseProxy * Loop :=
  match script with
  | [] => (r, Continue)
  | (sel, order) :: rest =>
      match bootstrapIteration order i e sel r with
      | (r', Continue) => bootstrapTask i e rest r'
      | (r', Return) => (r', Return)
      end
  end.

(** [bootstrap]: the tasks it starts, as pairs of index and endpoint. *)
Definition bootstrap (r : ReverseProxy) : list (nat * string) :=
  match endpoints r with
  | Some eps => imap (λ idx endpoint, (idx, endpoint)) eps
  | None => []
  end.

(** ** The connection proxy *)

(** A [net.Conn]; [isTCP] is the outcome of the type assertion to a
    pointer to [net.TCPConn]. *)
Record Conn : Type := mkConn { fd : nat; isTCP : bool }.

(** The outcome of [net.DialTimeout]. *)
Inductive DialResult : Type :=
  | Dialed (c2 : Conn)
  | DialError.

(** What a goroutine does to the outside, to the registry and to the wait
    group of [joinConnections], in the order in which that goroutine does
    it.  [Go dst src] starts the goroutine [join(dst, src)]; [WgWait] is
    [wg.Wait()] and [WgDone] is [wg.Done()]. *)
Inductive Effect : Type :=
  | Dial (address : string) (timeoutMs : Z)
  | Close (c : Conn)
  | Increment (uid : string)
  | Go (dst src : Conn)
  | WgWait
  | Copy (dst src : Conn)
  | WgDone
  | CloseRead (c : Conn)
  | Decrement (uid : string).

Inductive Outcome : Type := Returns | Panics.

Definition is_dial (e : Effect) : bool :=
  match e with Dial _ _ => true | _ => false end.


(** [joinConnections], as the goroutine of the handler: it returns at
    once when one of the connections is not a TCP connection, and
    otherwise starts the two copies and waits for the [wg.Done()] of
    both; the deferred [DecrementBackend] comes last.  The half-closes
    belong to the goroutines of the copies and are not ordered with
    respect to the decrement. *)
Definition joinConnections (uid : string) (c1 c2 : Conn) : list Effect :=
  (if isTCP c1 && isTCP c2
   then [Go c1 c2; Go c2 c1; WgWait]
   else [])
  ++ [Decrement uid].

(** [proxyConnection].  [c1] is [None] for a nil connection, on which a
    method call panics. *)
Definition proxyConnection (r : ReverseProxy) (c1 : option Conn) (dial : DialResult)
    : list Effect * Outcome :=
  match GetBackend r with
  | None =>
      match c1 with
      | Some c => ([Close c], Returns)
      | None => ([], Panics)
      end
  | Some p =>
      match deref r p with
      | None => ([], Panics)
      | Some b =>
          let uid := UID b in
          let addr := Addr b in
          let dialing := Dial (addr +:+ ":6443") (ConnectTimeout r) in
          match dial with
          | DialError =>
              match c1 with
              | Some c => ([dialing; Close c], Returns)
              | None => ([dialing], Panics)
              end
          | Dialed c2 =>
              match c1 with
              | None => ([dialing], Returns)
              | Some c => (dialing :: Increment uid :: joinConnections uid c c2, Returns)
              end
          end
      end
  end.

(** An [error] value, as far as [Listen] looks at it: whether it is a
    [net.Error], and what its [Temporary()] says. *)
Record GoError : Type := mkGoError { isNetError : bool; Temporary : bool }.

Inductive Accept : Type :=
  | Accepted (conn : Conn)
  | AcceptFailed (err : GoError).

(** How [Listen] stands after the accepts it was given. *)
Inductive ListenState : Type :=
  | ListenReturned (err : GoError)
  | Accepting.

(** The loop of [Listen] along a script of the results of [l.Accept()]: the
    arguments of the handlers it starts with [go r.proxyConnection(conn)],
    in order, and how the loop stands at the end of the script.  On an
    error [conn] is nil. *)
Fixpoint acceptLoop (script : list Accept) : list (option Conn) * ListenState :=
  match script with
  | [] => ([], Accepting)
  | Accepted conn :: rest =>
      let '(started, st) := acceptLoop rest in (Some conn :: started, st)
  | AcceptFailed err :: rest =>
      if isNetError err && Temporary err
      then acceptLoop rest
      else let '(started, st) := acceptLoop rest in (None :: started, st)
  end.

(** [Listen]: [bound] is the error of [net.Listen], if any. *)
Definition Listen (bound : option GoError) (script : list Accept)
    : list (option Conn) * ListenState :=
  match bound with
  | Some err => ([], ListenReturned err)
  | None => acceptLoop script
  end.

(** ** Further notions *)

(** Every registered object carries the key it is registered under. *)
Definition keyed (r : ReverseProxy) : Prop :=
  ∀ uid l b, backends r !! uid = Some l → objects r !! l = Some b → UID b = uid.

(** The registry holds no object until an [AddBackend] allocates one; from
    then on [r.current] is never nil again. *)
Definition selected_once_added (r : ReverseProxy) : Prop :=
  objects r ≠ [] → is_Some (current r).



(** The connections that a script of accepts hands out, in order, and the
    number of its errors that are not temporary. *)
Fixpoint accepted (script : list Accept) : list Conn :=
  match script with
  | [] => []
  | Accepted conn :: rest => conn :: accepted rest
  | AcceptFailed _ :: rest => accepted rest
  end.

Fixpoint fatal_errors (script : list Accept) : nat :=
  match script with
  | [] => 0%nat
  | Accepted _ :: rest => fatal_errors rest
  | AcceptFailed err :: rest =>
      if isNetError err && Temporary err then fatal_errors rest else S (fatal_errors rest)
  end.

(** The bootstrap tasks [ts], given with the order of the [setCurrent] of
    each, take the [Done] case of their [select] one after the other. *)
Definition tasks_done (ts : list ((nat * string) * list string)) (r : ReverseProxy)
    : ReverseProxy :=
  foldl (λ r' t, (bootstrapIteration t.2 t.1.1 t.1.2 CtxDone r').1) r ts.
Example run_add_two :
  let r := run [(OpAdd "a" "10.0.0.1", ["a"]); (OpAdd "b" "10.0.0.2", ["a"; "b"])]
               (NewReverseProxy None) in
  GetBackend r = Some 1%nat ∧ deref r 1%nat = Some (mkBackend "b" "10.0.0.2" 0).
Proof. vm_compute. done. Qed.

Section registry_facts.
Implicit Types (r : ReverseProxy) (order : list string) (uid : string).

Lemma registered_Some r uid b :
  registered r uid = Some b ↔ ∃ l, backends r !! uid = Some l ∧ objects r !! l = Some b.
Proof.
  unfold registered. destruct (backends r !! uid) as [l|] eqn:E; simpl.
  - split; [eauto | intros (l' & [= <-] & ?); done].
  - split; [done | intros (l' & ? & ?); done].
Qed.

Lemma ranges_elem order r uid :
  ranges order r → (uid ∈ order ↔ is_Some (backends r !! uid)).
Proof.
  unfold ranges. intros ->. rewrite list_elem_of_fmap. split.
  - intros ([k l] & -> & H). apply elem_of_map_to_list in H. eauto.
  - intros [l H]. exists (uid, l). split; [done | by apply elem_of_map_to_list].
Qed.

Lemma ranges_forget order r r' :
  backends r = backends r' → ranges order r → ranges order r'.
Proof. unfold ranges. by intros ->. Qed.

Lemma setCurrent_body_inv r c0 visited acc uid :
  (∀ l b, objects r !! l = Some b → 0 ≤ Connections b ≤ MaxUint32) →
  loop_inv r c0 visited acc →
  loop_inv r c0 (visited ++ [uid]) (setCurrent_body r acc uid).
Proof.
  intros Hc [Hlow Hsel]. unfold setCurrent_body.
  destruct (backends r !! uid) as [l|] eqn:Hl.
  2:{ split.
      - intros k b [Hk | Hk%list_elem_of_singleton]%elem_of_app Hb; [eauto |].
        subst k. apply registered_Some in Hb as (l & ? & ?). congruence.
      - destruct Hsel as [[-> Hall] | (k & l & b & Hk & ?)].
        + left. split; [done |].
          intros k b [Hk | Hk%list_elem_of_singleton]%elem_of_app Hb; [eauto |].
          subst k. apply registered_Some in Hb as (l & ? & ?). congruence.
        + right. exists k, l, b. rewrite elem_of_app. tauto. }
  destruct (objects r !! l) as [b|] eqn:Hb.
  2:{ split.
      - intros k b [Hk | Hk%list_elem_of_singleton]%elem_of_app Hkb; [eauto |].
        subst k. apply registered_Some in Hkb as (l' & ? & ?). congruence.
      - destruct Hsel as [[-> Hall] | (k & l' & b & Hk & ?)].
        + left. split; [done |].
          intros k b [Hk | Hk%list_elem_of_singleton]%elem_of_app Hkb; [eauto |].
          subst k. apply registered_Some in Hkb as (l' & ? & ?). congruence.
        + right. exists k, l', b. rewrite elem_of_app. tauto. }
  assert (Hreg : registered r uid = Some b).
  { apply registered_Some. eauto. }
  pose proof (Hc _ _ Hb) as Hrange.
  destruct ((Connections b =? 0) || (Connections b <? acc.1)) eqn:Htest.
  - split.
    + simpl. intros k b' [Hk | Hk%list_elem_of_singleton]%elem_of_app Hkb.
      * specialize (Hlow _ _ Hk Hkb).
        apply orb_true_iff in Htest as [H0%Z.eqb_eq | Hlt%Z.ltb_lt]; [| lia].
        apply registered_Some in Hkb as (l' & _ & Hb').
        apply Hc in Hb'. lia.
      * subst k. rewrite Hreg in Hkb. injection Hkb as <-. lia.
    + right. exists uid, l, b. rewrite elem_of_app, list_elem_of_singleton. tauto.
  - apply orb_false_iff in Htest as [H0%Z.eqb_neq Hge%Z.ltb_ge]. split.
    + intros k b' [Hk | Hk%list_elem_of_singleton]%elem_of_app Hkb; [eauto |].
      subst k. rewrite Hreg in Hkb. injection Hkb as <-. done.
    + destruct Hsel as [[-> Hall] | (k & l' & b' & Hk & ?)].
      * left. split; [done |].
        intros k b' [Hk | Hk%list_elem_of_singleton]%elem_of_app Hkb; [eauto |].
        subst k. rewrite Hreg in Hkb. injection Hkb as <-. simpl in Hge. lia.
      * right. exists k, l', b'. rewrite elem_of_app. tauto.
Qed.

Lemma setCurrent_loop_inv r c0 order :
  (∀ l b, objects r !! l = Some b → 0 ≤ Connections b ≤ MaxUint32) →
  loop_inv r c0 order (foldl (setCurrent_body r) (MaxUint32, c0) order).
Proof.
  intros Hc. induction order as [|uid order IH] using rev_ind.
  - split; [intros k b Hk; by apply elem_of_nil in Hk |].
    left. split; [done | intros k b Hk; by apply elem_of_nil in Hk].
  - rewrite foldl_app. simpl. by apply setCurrent_body_inv.
Qed.

Lemma setCurrent_backends order r : backends (setCurrent order r) = backends r.
Proof. done. Qed.

Lemma setCurrent_objects order r : objects (setCurrent order r) = objects r.
Proof. done. Qed.

Lemma forget_setCurrent order r : forget (setCurrent order r) = forget r.
Proof. done. Qed.

Lemma registered_setCurrent order r uid :
  registered (setCurrent order r) uid = registered r uid.
Proof. done. Qed.

(** What one pass of [setCurrent] achieves. *)
Lemma setCurrent_selects_least order r :
  wf r → ranges order r → selects_least (setCurrent order r).
Proof.
  intros Hwf Hord (k0 & b0 & Hreg0 & Hlt0).
  destruct (setCurrent_loop_inv r (current r) order (wf_counts r Hwf)) as [Hlow Hsel].
  assert (Hin : ∀ k b, registered r k = Some b → k ∈ order).
  { intros k b (l & Hl & _)%registered_Some. apply (ranges_elem order r k Hord). eauto. }
  destruct Hsel as [[_ Hall] | (k & l & b & Hk & Hl & Hb & Hacc)].
  - rewrite registered_setCurrent in Hreg0.
    specialize (Hall _ _ (Hin _ _ Hreg0) Hreg0). lia.
  - exists l. split.
    + unfold GetBackend, setCurrent. simpl. by rewrite Hacc.
    + exists k, b. rewrite setCurrent_backends, setCurrent_objects.
      split; [done |]. split; [done |].
      intros k' b' Hreg'. rewrite registered_setCurrent in Hreg'.
      specialize (Hlow _ _ (Hin _ _ Hreg') Hreg'). by rewrite Hacc in Hlow.
Qed.

Lemma setCurrent_wf order r : wf r → wf (setCurrent order r).
Proof.
  intros Hwf. split; try apply Hwf.
  intros l. unfold setCurrent. simpl.
  destruct (setCurrent_loop_inv r (current r) order (wf_counts r Hwf)) as [_ Hsel].
  destruct Hsel as [[-> _] | (k & l' & b & _ & Hl & _ & ->)]; simpl.
  - apply Hwf.
  - intros [= <-]. by eapply wf_backends.
Qed.

End registry_facts.

Section registry_runs.
Implicit Types (r : ReverseProxy) (order : list string) (uid : string).

Lemma uint32_incr_range x : 0 ≤ uint32_incr x ≤ MaxUint32.
Proof. unfold uint32_incr, MaxUint32. pose proof (Z.mod_pos_bound (x + 1) (2 ^ 32)). lia. Qed.

Lemma uint32_decr_range x : 0 ≤ uint32_decr x ≤ MaxUint32.
Proof. unfold uint32_decr, MaxUint32. pose proof (Z.mod_pos_bound (x - 1) (2 ^ 32)). lia. Qed.

(** A positive [uint32] is decremented without wrapping. *)
Lemma uint32_decr_pos x : 0 < x ≤ MaxUint32 → uint32_decr x = x - 1.
Proof. unfold uint32_decr, MaxUint32. intros. apply Z.mod_small. lia. Qed.

Lemma wf_alloc r uid addr :
  wf r → backends r !! uid = None →
  wf (set_backends (<[uid := length (objects r)]> (backends r))
        (set_objects (objects r ++ [mkBackend uid addr 0]) r)).
Proof.
  intros Hwf Hfresh. split; simpl.
  - intros k l. rewrite length_app. simpl. rewrite lookup_insert.
    case_decide; [intros [= <-]; lia |].
    intros Hl%(wf_backends r Hwf). lia.
  - intros l b [Hb | [_ Hb]]%lookup_app_Some; [by eapply wf_counts |].
    apply list_lookup_singleton_Some in Hb as [_ <-]. simpl. unfold MaxUint32. lia.
  - intros l Hl%(wf_current r Hwf). rewrite length_app. lia.
  - intros u1 u2 l. rewrite !lookup_insert.
    repeat case_decide; subst; try done.
    + intros [= <-] Hl%(wf_backends r Hwf). lia.
    + intros Hl%(wf_backends r Hwf) [= <-]. lia.
    + apply Hwf.
Qed.

Lemma wf_delete r uid : wf r → wf (set_backends (delete uid (backends r)) r).
Proof.
  intros Hwf. split; simpl; try apply Hwf.
  - intros k l [_ H]%lookup_delete_Some. by eapply wf_backends.
  - intros u1 u2 l [_ H1]%lookup_delete_Some [_ H2]%lookup_delete_Some.
    by eapply wf_inj.
Qed.

Lemma wf_store r l b c :
  wf r → 0 ≤ c ≤ MaxUint32 →
  wf (set_objects (<[l := with_connections c b]> (objects r)) r).
Proof.
  intros Hwf Hc. split; simpl; rewrite ?length_insert; try apply Hwf.
  intros l' b'. destruct (decide (l = l')) as [<- | Hne].
  - intros H. pose proof (lookup_lt_Some _ _ _ H) as Hlt.
    rewrite length_insert in Hlt.
    rewrite list_lookup_insert_eq in H by done. by injection H as <-.
  - rewrite list_lookup_insert_ne by done. by eapply wf_counts.
Qed.

(** Every operation either returns early, leaving the proxy as it is, or
    ends with [setCurrent] on a well-formed state. *)
Lemma exec_cases order op r :
  wf r → exec order op r = r ∨ ∃ r', wf r' ∧ exec order op r = setCurrent order r'.
Proof.
  intros Hwf. destruct op as [uid addr | uid | uid | uid]; simpl.
  - unfold AddBackend. destruct (backends r !! uid) eqn:E; [by left |].
    right. eexists. split; [| done]. by apply wf_alloc.
  - unfold DeleteBackend. destruct (backends r !! uid) eqn:E; right.
    + eexists. split; [| done]. by apply wf_delete.
    + by exists r.
  - unfold IncrementBackend. destruct (backends r !! uid) as [l|]; [| by left].
    destruct (objects r !! l) as [b|]; [| by left].
    right. eexists. split; [| done]. apply wf_store; [done | apply uint32_incr_range].
  - unfold DecrementBackend. destruct (backends r !! uid) as [l|]; [| by left].
    destruct (objects r !! l) as [b|]; [| by left].
    destruct (Connections b =? 0); [by left |].
    right. eexists. split; [| done]. apply wf_store; [done | apply uint32_decr_range].
Qed.

Lemma exec_wf order op r : wf r → wf (exec order op r).
Proof.
  intros Hwf. destruct (exec_cases order op r Hwf) as [-> | (r' & Hwf' & ->)]; [done |].
  by apply setCurrent_wf.
Qed.

Lemma exec_selects_least order op r :
  wf r → selects_least r → ranges order (exec order op r) →
  selects_least (exec order op r).
Proof.
  intros Hwf Hsel. destruct (exec_cases order op r Hwf) as [-> | (r' & Hwf' & ->)]; [done |].
  intros Hord. by apply setCurrent_selects_least.
Qed.

Lemma NewReverseProxy_wf eps : wf (NewReverseProxy eps).
Proof. split; simpl; intros; simplify_map_eq; by simplify_list_eq. Qed.

Lemma NewReverseProxy_selects_least eps : selects_least (NewReverseProxy eps).
Proof. intros (k & b & H & _). unfold registered in H. simpl in H. by simplify_map_eq. Qed.

Lemma run_invariant s r :
  wf r → selects_least r → ranges_all s r →
  wf (run s r) ∧ selects_least (run s r).
Proof.
  revert r. induction s as [|[op order] s IH]; intros r Hwf Hsel Hord; simpl in *; [done |].
  destruct Hord as [Hord Hrest].
  apply IH; [by apply exec_wf | by apply exec_selects_least | done].
Qed.

(** Apart from the cached selection, the outcome of an operation does not
    depend on the iteration order. *)
Lemma exec_forget order order' op r r' :
  forget r = forget r' → forget (exec order op r) = forget (exec order' op r').
Proof.
  intros H. destruct r, r'. unfold forget, set_current in H. simpl in H.
  injection H as -> -> -> -> ->.
  destruct op as [uid addr | uid | uid | uid]; simpl;
    unfold AddBackend, DeleteBackend, IncrementBackend, DecrementBackend; simpl;
    repeat (case_match; simpl; try done).
Qed.

Lemma run_forget s s' r r' :
  s.*1 = s'.*1 → forget r = forget r' → forget (run s r) = forget (run s' r').
Proof.
  revert s' r r'. induction s as [|[op order] s IH]; intros [|[op' order'] s'] r r' Hops Hr;
    simpl in *; try done.
  injection Hops as -> Hops. apply IH; [done |]. by apply exec_forget.
Qed.

End registry_runs.

(** ** The selection of the least loaded backend *)

Section selection.
Implicit Types (r : ReverseProxy) (order : list string) (uid : string).

Lemma run_wf s eps : wf (run s (NewReverseProxy eps)).
Proof.
  generalize (NewReverseProxy_wf eps). generalize (NewReverseProxy eps).
  induction s as [|[op order] s IH]; intros r Hwf; simpl; [done |].
  apply IH. by apply exec_wf.
Qed.

(** As long as some registered backend has a count below [MaxUint32], the
    selection is a registered backend with the least count. *)
Lemma run_selects_least s eps :
  ranges_all s (NewReverseProxy eps) → selects_least (run s (NewReverseProxy eps)).
Proof.
  intros Hord.
  by apply run_invariant;
    [apply NewReverseProxy_wf | apply NewReverseProxy_selects_least |].
Qed.

Lemma least_loaded_forget r r' p :
  forget r = forget r' → least_loaded r p → least_loaded r' p.
Proof.
  intros H. assert (backends r = backends r' ∧ objects r = objects r') as [Hb Ho].
  { destruct r, r'. unfold forget, set_current in H. simpl in *. by injection H as -> -> -> -> ->. }
  unfold least_loaded, registered. by rewrite Hb, Ho.
Qed.

Lemma selectable_forget r r' : forget r = forget r' → selectable r → selectable r'.
Proof.
  intros H. assert (backends r = backends r' ∧ objects r = objects r') as [Hb Ho].
  { destruct r, r'. unfold forget, set_current in H. simpl in *. by injection H as -> -> -> -> ->. }
  unfold selectable, registered. by rewrite Hb, Ho.
Qed.

Lemma least_loaded_count r p q b c :
  least_loaded r p → least_loaded r q →
  deref r p = Some b → deref r q = Some c → Connections b = Connections c.
Proof.
  unfold deref. intros (k & b' & Hk & Hb & Hmin) (k' & c' & Hk' & Hc & Hmin') Hp Hq.
  rewrite Hb in Hp. rewrite Hc in Hq. injection Hp as ->. injection Hq as ->.
  assert (registered r k = Some b) as Hrb by (apply registered_Some; eauto).
  assert (registered r k' = Some c) as Hrc by (apply registered_Some; eauto).
  specialize (Hmin _ _ Hrc). specialize (Hmin' _ _ Hrb). lia.
Qed.

End selection.

(** C1.  The design document states that after every operation of a
    sequence that starts from the empty registry, [GetBackend] returns a
    backend of least connection count among the registered ones, and none
    if and only if the registry is empty.  On the code the second half
    fails: [setCurrent] assigns [r.current] only inside its loop, so that
    deleting the last backend leaves the pointer to the deleted backend in
    place.  After [AddBackend("a", "10.0.0.1")] and [DeleteBackend("a")]
    the registry is empty and [GetBackend] still returns the backend [a]. *)
Theorem C1_selection_survives_last_delete :
  let s := [(OpAdd "a" "10.0.0.1", ["a"]); (OpDelete "a", [])] in
  let r := run s (NewReverseProxy None) in
  ranges_all s (NewReverseProxy None)
  ∧ backends r = ∅
  ∧ GetBackend r = Some 0%nat
  ∧ deref r 0%nat = Some (mkBackend "a" "10.0.0.1" 0).
Proof.
  simpl. split; [| by vm_compute].
  split; [by vm_compute |]. split; [by vm_compute | done].
Qed.

(** C5, a tie-break that is the same in every run, does not hold: after
    [AddBackend("a", ...)] and [AddBackend("b", ...)] both backends have no
    connection, and the selection is [b] when the loop of [setCurrent]
    visits [a] first and [a] when it visits [b] first. *)
Lemma C5_tie_broken_by_iteration_order :
  let s1 := [(OpAdd "a" "10.0.0.1", ["a"]); (OpAdd "b" "10.0.0.2", ["a"; "b"])] in
  let s2 := [(OpAdd "a" "10.0.0.1", ["a"]); (OpAdd "b" "10.0.0.2", ["b"; "a"])] in
  let r0 := NewReverseProxy None in
  s1.*1 = s2.*1 ∧ ranges_all s1 r0 ∧ ranges_all s2 r0
  ∧ (GetBackend (run s1 r0) ≫= deref (run s1 r0)) = Some (mkBackend "b" "10.0.0.2" 0)
  ∧ (GetBackend (run s2 r0) ≫= deref (run s2 r0)) = Some (mkBackend "a" "10.0.0.1" 0)
  ∧ GetBackend (run s1 r0) ≠ GetBackend (run s2 r0).
Proof.
  simpl. split; [done |].
  split. { split; [by vm_compute |]. split; [by vm_compute | done]. }
  split. { split; [by vm_compute |]. split; [| done]. vm_compute. apply perm_swap. }
  split; [by vm_compute |]. split; [by vm_compute |]. by vm_compute.
Qed.

(** C5, amended.  Two runs of one operation sequence, whatever the orders
    in which [setCurrent] visits the map, end with the same registry
    (identifiers, addresses and counts); and when some registered backend
    has a count below [MaxUint32], each of the two selections is a
    registered backend of least count, so that the two differ at most in
    which of the tied backends they are. *)
Theorem C5_selection_determined_up_to_ties
    (s1 s2 : list (Op * list string)) (eps : option (list string)) :
  s1.*1 = s2.*1 →
  ranges_all s1 (NewReverseProxy eps) →
  ranges_all s2 (NewReverseProxy eps) →
  let r1 := run s1 (NewReverseProxy eps) in
  let r2 := run s2 (NewReverseProxy eps) in
  forget r1 = forget r2
  ∧ (selectable r1 →
     ∃ p1 p2 b1 b2,
       GetBackend r1 = Some p1 ∧ GetBackend r2 = Some p2
       ∧ least_loaded r1 p1 ∧ least_loaded r1 p2
       ∧ deref r1 p1 = Some b1 ∧ deref r1 p2 = Some b2
       ∧ Connections b1 = Connections b2).
Proof.
  intros Hops H1 H2 r1 r2.
  assert (Hf : forget r1 = forget r2) by by apply run_forget.
  split; [done |]. intros Hsel.
  destruct (run_selects_least s1 eps H1 Hsel) as (p1 & Hp1 & Hl1).
  destruct (run_selects_least s2 eps H2 (selectable_forget _ _ Hf Hsel)) as (p2 & Hp2 & Hl2).
  apply (least_loaded_forget r2 r1) in Hl2; [| done].
  destruct Hl1 as (k1 & b1 & Hk1 & Hb1 & Hm1). destruct Hl2 as (k2 & b2 & Hk2 & Hb2 & Hm2).
  exists p1, p2, b1, b2. repeat split; try done.
  - by exists k1, b1.
  - by exists k2, b2.
  - eapply (least_loaded_count r1 p1 p2); [by exists k1, b1 | by exists k2, b2 | done | done].
Qed.

Lemma C5_selection_determined_up_to_ties_witness :
  let s1 := [(OpAdd "a" "10.0.0.1", ["a"]); (OpAdd "b" "10.0.0.2", ["a"; "b"])] in
  let s2 := [(OpAdd "a" "10.0.0.1", ["a"]); (OpAdd "b" "10.0.0.2", ["b"; "a"])] in
  let r1 := run s1 (NewReverseProxy None) in
  let r2 := run s2 (NewReverseProxy None) in
  forget r1 = forget r2
  ∧ (selectable r1 →
     ∃ p1 p2 b1 b2,
       GetBackend r1 = Some p1 ∧ GetBackend r2 = Some p2
       ∧ least_loaded r1 p1 ∧ least_loaded r1 p2
       ∧ deref r1 p1 = Some b1 ∧ deref r1 p2 = Some b2
       ∧ Connections b1 = Connections b2).
Proof.
  apply (C5_selection_determined_up_to_ties
           [(OpAdd "a" "10.0.0.1", ["a"]); (OpAdd "b" "10.0.0.2", ["a"; "b"])]
           [(OpAdd "a" "10.0.0.1", ["a"]); (OpAdd "b" "10.0.0.2", ["b"; "a"])] None).
  - reflexivity.
  - simpl. split; [by vm_compute |]. split; [by vm_compute | done].
  - simpl. split; [by vm_compute |]. split; [| done]. vm_compute. apply perm_swap.
Defined.

(** What the test of [DecrementBackend] guards against. *)
Example uint32_decr_wraps : uint32_decr 0 = MaxUint32.
Proof. reflexivity. Qed.

Example decrement_at_zero :
  let r := run [(OpAdd "a" "10.0.0.1", ["a"])] (NewReverseProxy None) in
  DecrementBackend ["a"] "a" r = r
  ∧ registered (DecrementBackend ["a"] "a" (IncrementBackend ["a"] "a" r)) "a"
    = Some (mkBackend "a" "10.0.0.1" 0).
Proof. by vm_compute. Qed.

(** C7.  In every state that a sequence of operations reaches from the
    empty registry, [DecrementBackend] of an identifier that is absent, or
    whose backend has no connection, returns the state as it is; and in
    all cases every count stays at or above zero: the count of the named
    backend goes down by one if it was positive, and no other count
    changes. *)
Theorem C7_decrement_never_below_zero
    (s : list (Op * list string)) (eps : option (list string))
    (order : list string) (uid : string) :
  let r := run s (NewReverseProxy eps) in
  (registered r uid = None ∨ (∃ b, registered r uid = Some b ∧ Connections b = 0)
   → DecrementBackend order uid r = r)
  ∧ (∀ uid' b', registered (DecrementBackend order uid r) uid' = Some b' →
       0 ≤ Connections b'
       ∧ ∃ b, registered r uid' = Some b
              ∧ Connections b' = if bool_decide (uid' = uid) && (0 <? Connections b)
                                 then Connections b - 1 else Connections b).
Proof.
  intros r. pose proof (run_wf s eps) as Hwf. fold r in Hwf. clearbody r. split.
  - unfold DecrementBackend, registered.
    intros [Hnone | (b & Hb & H0)].
    + destruct (backends r !! uid) as [l|]; [| done].
      change (objects r !! l = None) in Hnone. by rewrite Hnone.
    + destruct (backends r !! uid) as [l|]; [| done].
      change (objects r !! l = Some b) in Hb. rewrite Hb.
      by apply Z.eqb_eq in H0 as ->.
  - intros uid' b' Hreg'.
    assert (Hwf' : wf (DecrementBackend order uid r)) by apply (exec_wf order (OpDecrement uid) r Hwf).
    split.
    { apply registered_Some in Hreg' as (l' & _ & Hb'). apply (wf_counts _ Hwf') in Hb'. lia. }
    revert Hreg'. unfold DecrementBackend.
    destruct (backends r !! uid) as [l|] eqn:Hl.
    2:{ intros Hreg'. exists b'. split; [done |].
        case_bool_decide as Hu; [| done]. subst uid'.
        apply registered_Some in Hreg' as (l' & ? & ?). congruence. }
    destruct (objects r !! l) as [b|] eqn:Hb.
    2:{ intros Hreg'. exists b'. split; [done |].
        case_bool_decide as Hu; [| done]. subst uid'.
        apply registered_Some in Hreg' as (l' & ? & ?). congruence. }
    destruct (Connections b =? 0) eqn:H0.
    { intros Hreg'. exists b'. split; [done |].
      case_bool_decide as Hu; [| done]. subst uid'.
      apply registered_Some in Hreg' as (l' & ? & ?).
      assert (b' = b) as -> by congruence. apply Z.eqb_eq in H0. rewrite H0. done. }
    rewrite registered_setCurrent. intros (l' & Hl' & Hb')%registered_Some. simpl in *.
    apply Z.eqb_neq in H0. pose proof (wf_counts r Hwf _ _ Hb) as Hrange.
    destruct (decide (l = l')) as [<- | Hne].
    + assert (uid' = uid) as -> by by eapply (wf_inj r Hwf).
      rewrite list_lookup_insert_eq in Hb' by by eapply lookup_lt_Some.
      injection Hb' as <-. exists b. split; [apply registered_Some; eauto |].
      rewrite bool_decide_eq_true_2 by done. simpl.
      destruct (0 <? Connections b) eqn:Hpos; [| apply Z.ltb_ge in Hpos; lia].
      apply uint32_decr_pos. lia.
    + rewrite list_lookup_insert_ne in Hb' by done.
      exists b'. split; [apply registered_Some; eauto |].
      case_bool_decide as Hu; [| done]. subst uid'. congruence.
Qed.

(** ** The cutover *)

Section cutover.
Implicit Types (r : ReverseProxy) (cfg : list FirePc * ReverseProxy) (t : nat).

Lemma stopBootstrapBackends_idemp r :
  stopBootstrapBackends (stopBootstrapBackends r) = stopBootstrapBackends r.
Proof. unfold stopBootstrapBackends. destruct (endpoints r) eqn:E; simpl; by rewrite ?E. Qed.

Lemma stopBootstrapBackends_iter r k :
  Nat.iter k stopBootstrapBackends (stopBootstrapBackends r) = stopBootstrapBackends r.
Proof. induction k as [|k IH]; simpl; [done |]. by rewrite IH, stopBootstrapBackends_idemp. Qed.

Lemma stopBootstrapBackends_first r :
  endpoints r ≠ None → ctxDone (bootstrapCtx r) = false →
  ctxDone (bootstrapCtx (stopBootstrapBackends r)) = true
  ∧ doneCloses (bootstrapCtx (stopBootstrapBackends r)) = S (doneCloses (bootstrapCtx r))
  ∧ endpoints (stopBootstrapBackends r) = None.
Proof.
  intros Heps Hlive. unfold stopBootstrapBackends.
  destruct (endpoints r); [simpl | done]. by rewrite Hlive.
Qed.

(** A firing that runs alone is [stopBootstrapBackends]. *)
Lemma firing_alone r :
  (interleave [0; 0; 0]%nat (firings 1 r)).2 = stopBootstrapBackends r.
Proof.
  unfold interleave, firings, sched_step, stopBootstrapBackends. simpl.
  destruct (endpoints r); done.
Qed.

Lemma sched_step_length cfg t : length (sched_step cfg t).1 = length cfg.1.
Proof.
  unfold sched_step. destruct (cfg.1 !! t) as [pc|]; [| done].
  destruct (fire_step pc cfg.2). simpl. apply length_insert.
Qed.

Lemma interleave_length sched cfg : length (interleave sched cfg).1 = length cfg.1.
Proof.
  revert cfg. unfold interleave.
  induction sched as [|t sched IH]; intros cfg; simpl; [done |].
  by rewrite IH, sched_step_length.
Qed.

Lemma lookup_set_pc (pcs : list FirePc) t t' pc pc' x :
  pcs !! t = Some pc → <[t := pc']> pcs !! t' = Some x →
  (t' = t ∧ x = pc') ∨ (t' ≠ t ∧ pcs !! t' = Some x).
Proof.
  intros Hpc H. destruct (decide (t = t')) as [<- | Hne].
  - left. rewrite list_lookup_insert_eq in H by by eapply lookup_lt_Some.
    split; congruence.
  - right. by rewrite list_lookup_insert_ne in H.
Qed.

Lemma sched_step_inv r0 cfg t : fire_inv r0 cfg → fire_inv r0 (sched_step cfg t).
Proof.
  destruct cfg as [pcs r]. intros [Hreg Hfin Hclr Hnil Hcnt]. simpl in *.
  unfold sched_step. simpl. destruct (pcs !! t) as [pc|] eqn:Hpc; [| by split].
  destruct pc; simpl.
  - (* the test of r.endpoints *)
    split; simpl; try done.
    + intros t' [[-> Hx] | [Hne Hold]]%(lookup_set_pc _ _ _ _ _ _ Hpc); [| eauto].
      by destruct (endpoints r).
    + intros t' [[-> Hx] | [Hne Hold]]%(lookup_set_pc _ _ _ _ _ _ Hpc); [| eauto].
      by destruct (endpoints r).
  - (* the call of r.cancelBootstrap *)
    split; simpl; try done.
    + intros t' [[-> Hx] | [Hne Hold]]%(lookup_set_pc _ _ _ _ _ _ Hpc); [done | eauto].
    + destruct (ctxDone (bootstrapCtx r)); by rewrite Hcnt.
  - (* r.endpoints = nil *)
    split; simpl; try done.
    + intros t' [[-> Hx] | [Hne Hold]]%(lookup_set_pc _ _ _ _ _ _ Hpc); [done | eauto].
    + intros _. eauto.
  - (* the firing has returned *)
    split; simpl; try done.
    + intros t' [[-> Hx] | [Hne Hold]]%(lookup_set_pc _ _ _ _ _ _ Hpc); eauto.
    + intros t' [[-> Hx] | [Hne Hold]]%(lookup_set_pc _ _ _ _ _ _ Hpc); [done | eauto].
Qed.

Lemma interleave_inv r0 sched cfg : fire_inv r0 cfg → fire_inv r0 (interleave sched cfg).
Proof.
  revert cfg. unfold interleave.
  induction sched as [|t sched IH]; intros cfg Hinv; simpl; [done |].
  by apply IH, sched_step_inv.
Qed.

Lemma firings_inv n r :
  endpoints r ≠ None → ctxDone (bootstrapCtx r) = false → fire_inv r (firings n r).
Proof.
  intros Heps Hlive. split; simpl.
  - done.
  - intros t [[=] _]%lookup_replicate.
  - intros t [[=] _]%lookup_replicate.
  - done.
  - by rewrite Hlive.
Qed.

Lemma setCurrent_cutover order r :
  endpoints (setCurrent order r) = endpoints r
  ∧ bootstrapCtx (setCurrent order r) = bootstrapCtx r.
Proof. done. Qed.

Lemma AddBackend_cutover order uid addr r :
  endpoints (AddBackend order uid addr r).1 = endpoints r
  ∧ bootstrapCtx (AddBackend order uid addr r).1 = bootstrapCtx r.
Proof. unfold AddBackend. by destruct (backends r !! uid). Qed.

Lemma DeleteBackend_cutover order uid r :
  endpoints (DeleteBackend order uid r).1 = endpoints r
  ∧ bootstrapCtx (DeleteBackend order uid r).1 = bootstrapCtx r.
Proof. unfold DeleteBackend. by destruct (backends r !! uid). Qed.

(** Once the endpoints are nil, no notification touches the endpoints or
    the context again. *)
Lemma handle_fired order (ev : PodEvent) r :
  endpoints r = None →
  endpoints (handle order ev r) = None ∧ bootstrapCtx (handle order ev r) = bootstrapCtx r.
Proof.
  intros Hnil.
  assert (Hstop : ∀ r', endpoints r' = None → stopBootstrapBackends r' = r').
  { intros r' H. unfold stopBootstrapBackends. by rewrite H. }
  destruct ev as [pod | old new | pod]; simpl;
    unfold AddFunc, UpdateFunc, DeleteFunc;
    repeat case_match; try done;
    rewrite ?Hstop by (by rewrite (proj1 (AddBackend_cutover _ _ _ _)));
    rewrite ?(proj1 (AddBackend_cutover _ _ _ _)), ?(proj2 (AddBackend_cutover _ _ _ _)),
      ?(proj1 (DeleteBackend_cutover _ _ _)), ?(proj2 (DeleteBackend_cutover _ _ _));
    done.
Qed.

Lemma handle_all_fired (evs : list (PodEvent * list string)) r :
  endpoints r = None →
  endpoints (handle_all evs r) = None ∧ bootstrapCtx (handle_all evs r) = bootstrapCtx r.
Proof.
  revert r. induction evs as [|[ev order] evs IH]; intros r Hnil; simpl; [done |].
  destruct (handle_fired order ev r Hnil) as [Hnil' Hctx].
  destruct (IH _ Hnil') as [? Hctx']. split; [done |]. by rewrite Hctx'.
Qed.

Lemma fire_step_progress (pc : FirePc) r :
  (steps_left (fire_step pc r).1 ≤ pred (steps_left pc))%nat.
Proof. destruct pc; simpl; [destruct (endpoints r); simpl; lia | lia..]. Qed.

(** Every statement that the schedule gives to a firing brings it closer
    to its return, and the statements of the other firings do not set it
    back. *)
Lemma interleave_progress sched cfg t (pc : FirePc) :
  cfg.1 !! t = Some pc →
  ∃ pc', (interleave sched cfg).1 !! t = Some pc'
         ∧ (steps_left pc' ≤ steps_left pc - count_occ Nat.eq_dec sched t)%nat.
Proof.
  revert cfg pc. unfold interleave.
  induction sched as [|u sched IH]; intros [pcs r] pc Hpc; simpl in *.
  - exists pc. split; [done | lia].
  - destruct (Nat.eq_dec u t) as [-> | Hne].
    + unfold sched_step at 2. simpl. rewrite Hpc.
      pose proof (fire_step_progress pc r) as Hstep.
      destruct (fire_step pc r) as [pc1 r1]. simpl in Hstep.
      destruct (IH (<[t := pc1]> pcs, r1) pc1) as (pc' & Hpc' & Hle).
      { simpl. apply list_lookup_insert_eq. by eapply lookup_lt_Some. }
      exists pc'. split; [done | lia].
    + assert (Hsame : (sched_step (pcs, r) u).1 !! t = Some pc).
      { unfold sched_step. simpl. destruct (pcs !! u) as [pcu|]; [| done].
        destruct (fire_step pcu r). simpl. by rewrite list_lookup_insert_ne. }
      destruct (IH _ pc Hsame) as (pc' & Hpc' & Hle). by exists pc'.
Qed.

(** A schedule that gives every firing three statements lets all of them
    return. *)
Lemma interleave_finishes n r sched :
  (∀ t, (t < n)%nat → (3 ≤ count_occ Nat.eq_dec sched t)%nat) →
  all_finished (interleave sched (firings n r)).
Proof.
  intros Hfair t pc Hpc.
  assert (Ht : (t < n)%nat).
  { apply lookup_lt_Some in Hpc. rewrite interleave_length in Hpc. simpl in Hpc.
    by rewrite length_replicate in Hpc. }
  destruct (interleave_progress sched (firings n r) t AtCheck) as (pc' & Hpc' & Hle).
  { simpl. by apply lookup_replicate_2. }
  rewrite Hpc in Hpc'. injection Hpc' as <-.
  specialize (Hfair t Ht). simpl in Hle. destruct pc; simpl in Hle; [lia.. | done].
Qed.

End cutover.

(** The firings of this schedule overlap: both pass the test before either
    assigns nil.  The cancel function is then called twice; the second
    call does nothing, and [Done] is closed once. *)
Example overlapping_firings :
  let r := NewReverseProxy (Some ["10.0.0.2"]) in
  let cfg := interleave [0; 1; 0; 1; 0; 1]%nat (firings 2 r) in
  cfg.1 = [Finished; Finished]
  ∧ cancelCalls (bootstrapCtx cfg.2) = 2%nat
  ∧ doneCloses (bootstrapCtx cfg.2) = 1%nat
  ∧ endpoints cfg.2 = None.
Proof. by vm_compute. Qed.

(** C4.  On a proxy whose endpoints are set and whose bootstrap context is
    live, the first firing of the cutover closes the [Done] channel of the
    context once, and any number of further firings leaves the state as
    the first left it; nor does any sequence of pod notifications handled
    after the first firing touch the endpoints or the context.  The same
    holds when [n] firings overlap, whatever the schedule of their
    statements: [Done] is never closed more than once; as soon as one of
    the firings has returned the endpoints are nil, the context is done,
    [Done] was closed exactly once, the registry is as it was, and a
    further firing changes nothing; and every schedule that gives each
    firing its three statements lets all of them return. *)
Theorem C4_cutover_fires_once (r : ReverseProxy) (n : nat) (sched : list nat) :
  endpoints r ≠ None →
  ctxDone (bootstrapCtx r) = false →
  (0 < n)%nat →
  let fired := stopBootstrapBackends r in
  let cfg := interleave sched (firings n r) in
  (ctxDone (bootstrapCtx fired) = true
   ∧ doneCloses (bootstrapCtx fired) = S (doneCloses (bootstrapCtx r))
   ∧ (∀ k, Nat.iter k stopBootstrapBackends fired = fired)
   ∧ ∀ evs, endpoints (handle_all evs fired) = endpoints fired
            ∧ bootstrapCtx (handle_all evs fired) = bootstrapCtx fired)
  ∧ (doneCloses (bootstrapCtx cfg.2) ≤ S (doneCloses (bootstrapCtx r)))%nat
  ∧ ((∃ t, cfg.1 !! t = Some Finished) →
       same_registry r cfg.2
       ∧ endpoints cfg.2 = endpoints fired
       ∧ ctxDone (bootstrapCtx cfg.2) = true
       ∧ doneCloses (bootstrapCtx cfg.2) = S (doneCloses (bootstrapCtx r))
       ∧ stopBootstrapBackends cfg.2 = cfg.2)
  ∧ ((∀ t, (t < n)%nat → (3 ≤ count_occ Nat.eq_dec sched t)%nat) →
       all_finished cfg ∧ ∃ t, cfg.1 !! t = Some Finished).
Proof.
  intros Heps Hlive Hn fired cfg.
  pose proof (interleave_inv r sched _ (firings_inv n r Heps Hlive)) as Hinv.
  fold cfg in Hinv. destruct Hinv as [Hreg Hfin Hclr Hnil Hcnt].
  split; [| split; [| split]].
  - destruct (stopBootstrapBackends_first r Heps Hlive) as (Hdone & Hcl & Hnone).
    fold fired in Hdone, Hcl, Hnone.
    split; [done |]. split; [done |]. split.
    + intros k. apply stopBootstrapBackends_iter.
    + intros evs. rewrite Hnone. by apply handle_all_fired.
  - rewrite Hcnt. destruct (ctxDone (bootstrapCtx cfg.2)); lia.
  - intros [t Hpc].
    pose proof (Hfin _ Hpc) as Hnone. pose proof (Hnil Hnone) as Hdone.
    split; [done |]. split.
    { subst fired. unfold stopBootstrapBackends. by destruct (endpoints r). }
    split; [done |]. split; [by rewrite Hcnt, Hdone |].
    unfold stopBootstrapBackends. by rewrite Hnone.
  - intros Hfair.
    assert (Hall : all_finished cfg) by by apply interleave_finishes.
    split; [done |].
    assert (Hlen : length cfg.1 = n).
    { subst cfg. rewrite interleave_length. simpl. apply length_replicate. }
    destruct (lookup_lt_is_Some_2 cfg.1 0%nat) as [pc Hpc]; [lia |].
    exists 0%nat. by rewrite (Hall _ _ Hpc) in Hpc.
Qed.

Lemma C4_cutover_fires_once_witness :
  let r := NewReverseProxy (Some ["10.0.0.2"; "10.0.0.3"]) in
  let n := 2%nat in
  let sched := [0; 1; 0; 1; 0; 1]%nat in
  let fired := stopBootstrapBackends r in
  let cfg := interleave sched (firings n r) in
  (ctxDone (bootstrapCtx fired) = true
   ∧ doneCloses (bootstrapCtx fired) = S (doneCloses (bootstrapCtx r))
   ∧ (∀ k, Nat.iter k stopBootstrapBackends fired = fired)
   ∧ ∀ evs, endpoints (handle_all evs fired) = endpoints fired
            ∧ bootstrapCtx (handle_all evs fired) = bootstrapCtx fired)
  ∧ (doneCloses (bootstrapCtx cfg.2) ≤ S (doneCloses (bootstrapCtx r)))%nat
  ∧ ((∃ t, cfg.1 !! t = Some Finished) →
       same_registry r cfg.2
       ∧ endpoints cfg.2 = endpoints fired
       ∧ ctxDone (bootstrapCtx cfg.2) = true
       ∧ doneCloses (bootstrapCtx cfg.2) = S (doneCloses (bootstrapCtx r))
       ∧ stopBootstrapBackends cfg.2 = cfg.2)
  ∧ ((∀ t, (t < n)%nat → (3 ≤ count_occ Nat.eq_dec sched t)%nat) →
       all_finished cfg ∧ ∃ t, cfg.1 !! t = Some Finished).
Proof.
  apply (C4_cutover_fires_once (NewReverseProxy (Some ["10.0.0.2"; "10.0.0.3"])) 2
           [0; 1; 0; 1; 0; 1]%nat).
  - simpl. discriminate.
  - reflexivity.
  - lia.
Defined.

(** The schedule of the example above gives each of the two firings its
    three statements. *)
Example overlapping_firings_fair :
  ∀ t, (t < 2)%nat → (3 ≤ count_occ Nat.eq_dec [0; 1; 0; 1; 0; 1]%nat t)%nat.
Proof. intros [|[|t]] Ht; simpl; lia. Qed.

(** ** The discovery watcher *)

Section watcher.
Implicit Types (r : ReverseProxy) (order : list string) (pod : v1.Pod).

Lemma isAPIServer_carries pod :
  isAPIServer pod = true ↔
  carries pod "component" "kube-apiserver" ∨ carries pod "k8s-app" "self-hosted-kube-apiserver".
Proof.
  unfold isAPIServer, carries.
  destruct (v1.Labels pod !! "component") as [component|];
    destruct (v1.Labels pod !! "k8s-app") as [k8sApp|];
    repeat match goal with
           | |- context [String.eqb ?a ?b] =>
               let E := fresh in destruct (String.eqb_spec a b) as [E | E]; try subst
           end;
    split; try tauto; try (intros [[=] | [=]]; congruence); try done.
Qed.

Lemma anyNotReady_true (statuses : list v1.ContainerStatus) :
  anyNotReady statuses = true ↔ ∃ status, status ∈ statuses ∧ v1.Ready status = false.
Proof.
  induction statuses as [|status rest IH]; simpl.
  - split; [done | intros (s & Hs & _); by apply elem_of_nil in Hs].
  - destruct (v1.Ready status) eqn:E; simpl.
    + rewrite IH. split.
      * intros (s & Hs & Hr). exists s. split; [by right | done].
      * intros (s & [-> | Hs]%elem_of_cons & Hr); [congruence | eauto].
    + split; [| done]. intros _. exists status. split; [by left | done].
Qed.

Lemma anyNotReady_false (statuses : list v1.ContainerStatus) :
  anyNotReady statuses = false ↔ ∀ status, status ∈ statuses → v1.Ready status = true.
Proof.
  split.
  - intros H status Hin. destruct (v1.Ready status) eqn:E; [done |].
    assert (anyNotReady statuses = true) by (apply anyNotReady_true; eauto). congruence.
  - intros H. destruct (anyNotReady statuses) eqn:E; [| done].
    apply anyNotReady_true in E as (status & Hin & Hr). rewrite (H _ Hin) in Hr. done.
Qed.

(** Deleting one key leaves the entries of the other keys in place. *)
Lemma DeleteBackend_other order r uid uid' :
  uid ≠ uid' → registered (DeleteBackend order uid r).1 uid' = registered r uid'.
Proof.
  intros Hne. unfold DeleteBackend.
  destruct (backends r !! uid); simpl; rewrite registered_setCurrent; [| done].
  unfold registered. simpl. by rewrite lookup_delete_ne.
Qed.

Lemma DeleteBackend_gone order r uid : backends (DeleteBackend order uid r).1 !! uid = None.
Proof.
  unfold DeleteBackend. destruct (backends r !! uid) eqn:E; simpl; [| done].
  apply lookup_delete_eq.
Qed.

(** The update of an API server pod with a container that is not ready
    deletes the key [old.Status.PodIP]. *)
Lemma UpdateFunc_not_ready order (old new : v1.Pod) r :
  isAPIServer old = true →
  anyNotReady (v1.ContainerStatuses (v1.Status new)) = true →
  UpdateFunc order old new r = (DeleteBackend order (v1.PodIP (v1.Status old)) r).1.
Proof. unfold UpdateFunc. by intros -> ->. Qed.

(** So the entry under the UID of the pod stays, unless the UID and the IP
    are the same string. *)
Lemma UpdateFunc_not_ready_keeps_uid order (old new : v1.Pod) r :
  isAPIServer old = true →
  anyNotReady (v1.ContainerStatuses (v1.Status new)) = true →
  v1.PodIP (v1.Status old) ≠ v1.UID old →
  registered (UpdateFunc order old new r) (v1.UID old) = registered r (v1.UID old).
Proof.
  intros Hapi Hnot Hne. rewrite UpdateFunc_not_ready by done.
  by apply DeleteBackend_other.
Qed.

End watcher.

(** C2.  The design document states that an update in which a container
    of the new pod state is not ready deletes the backend registered under
    the UID of the pod.
    The handler passes [old.Status.PodIP] to [DeleteBackend], where
    [AddFunc] and [DeleteFunc] use the UID.  With the backend of pod
    [uid-1] registered by its add event, the update that reports its
    container not ready deletes nothing, and [uid-1] stays registered and
    selected. *)
Theorem C2_update_deletes_by_address :
  let labels : gmap string string := {[ "component" := "kube-apiserver" ]} in
  let pod ready := v1.mkPod "kube-apiserver-m1" "uid-1" labels
                     (v1.mkPodStatus "10.0.0.5" [v1.mkContainerStatus ready]) in
  let r := AddFunc ["uid-1"] (pod true) (NewReverseProxy (Some ["10.0.0.2"])) in
  let r' := UpdateFunc ["uid-1"] (pod true) (pod false) r in
  registered r "uid-1" = Some (mkBackend "uid-1" "10.0.0.5" 0)
  ∧ ranges ["uid-1"] r ∧ ranges ["uid-1"] r'
  ∧ r' = (DeleteBackend ["uid-1"] "10.0.0.5" r).1
  ∧ (DeleteBackend ["uid-1"] "10.0.0.5" r).2 = false
  ∧ registered r' "uid-1" = Some (mkBackend "uid-1" "10.0.0.5" 0)
  ∧ (GetBackend r' ≫= deref r') = Some (mkBackend "uid-1" "10.0.0.5" 0).
Proof.
  simpl. repeat split; by vm_compute.
Qed.

(** C8.  For the add event of an API server pod: when the IP of the pod
    is empty or one of its containers is not ready, the handler leaves
    the proxy as it is (no backend is added, the cutover is not fired);
    otherwise it calls [AddBackend] with the UID and the IP of the pod and
    then fires the cutover. *)
Theorem C8_add_event (order : list string) (pod : v1.Pod) (r : ReverseProxy) :
  isAPIServer pod = true →
  let ip := v1.PodIP (v1.Status pod) in
  let statuses := v1.ContainerStatuses (v1.Status pod) in
  (ip = "" ∨ (∃ status, status ∈ statuses ∧ v1.Ready status = false) →
   AddFunc order pod r = r)
  ∧ (ip ≠ "" → (∀ status, status ∈ statuses → v1.Ready status = true) →
     AddFunc order pod r = stopBootstrapBackends (AddBackend order (v1.UID pod) ip r).1).
Proof.
  intros Hapi ip statuses. unfold AddFunc. fold ip statuses. rewrite Hapi. simpl. split.
  - intros [-> | Hnot]; [done |].
    apply anyNotReady_true in Hnot as ->. by destruct (String.eqb ip "").
  - intros Hip Hready. apply anyNotReady_false in Hready as ->.
    by destruct (String.eqb_spec ip "").
Qed.

Lemma C8_add_event_witness :
  let labels : gmap string string := {[ "k8s-app" := "self-hosted-kube-apiserver" ]} in
  let pod := v1.mkPod "kube-apiserver-m1" "uid-1" labels
               (v1.mkPodStatus "10.0.0.5" [v1.mkContainerStatus true]) in
  let r := NewReverseProxy (Some ["10.0.0.2"]) in
  let ip := v1.PodIP (v1.Status pod) in
  let statuses := v1.ContainerStatuses (v1.Status pod) in
  (ip = "" ∨ (∃ status, status ∈ statuses ∧ v1.Ready status = false) →
   AddFunc ["uid-1"] pod r = r)
  ∧ (ip ≠ "" → (∀ status, status ∈ statuses → v1.Ready status = true) →
     AddFunc ["uid-1"] pod r
     = stopBootstrapBackends (AddBackend ["uid-1"] (v1.UID pod) ip r).1).
Proof.
  apply (C8_add_event ["uid-1"]
           (v1.mkPod "kube-apiserver-m1" "uid-1" {[ "k8s-app" := "self-hosted-kube-apiserver" ]}
              (v1.mkPodStatus "10.0.0.5" [v1.mkContainerStatus true]))
           (NewReverseProxy (Some ["10.0.0.2"]))).
  vm_compute. reflexivity.
Defined.

(** The scenario of the design document: an add event with IP 10.0.0.5
    and all containers ready, on an empty registry. *)
Example add_event_scenario :
  let labels : gmap string string := {[ "component" := "kube-apiserver" ]} in
  let pod := v1.mkPod "kube-apiserver-m1" "uid-1" labels
               (v1.mkPodStatus "10.0.0.5" [v1.mkContainerStatus true]) in
  let r := AddFunc ["uid-1"] pod (NewReverseProxy (Some ["10.0.0.2"])) in
  (GetBackend r ≫= deref r) = Some (mkBackend "uid-1" "10.0.0.5" 0)
  ∧ endpoints r = None ∧ ctxDone (bootstrapCtx r) = true.
Proof. by vm_compute. Qed.

(** C10.  An event whose pod carries neither [component=kube-apiserver]
    nor [k8s-app=self-hosted-kube-apiserver] leaves the proxy as it is:
    the registry, the selection, the endpoints and the bootstrap context.
    The pod of an update is the previous state of the pod, which is the
    object that [UpdateFunc] tests. *)
Theorem C10_other_pods_ignored (order : list string) (ev : PodEvent) (r : ReverseProxy) :
  ¬ carries (tested_pod ev) "component" "kube-apiserver" →
  ¬ carries (tested_pod ev) "k8s-app" "self-hosted-kube-apiserver" →
  handle order ev r = r.
Proof.
  intros H1 H2.
  assert (Hno : isAPIServer (tested_pod ev) = false).
  { destruct (isAPIServer (tested_pod ev)) eqn:E; [| done].
    apply isAPIServer_carries in E. tauto. }
  destruct ev as [pod | old new | pod]; simpl in *;
    unfold AddFunc, UpdateFunc, DeleteFunc; by rewrite Hno.
Qed.

(** An update is tested on the previous state of the pod alone: this one,
    whose new state has lost the label, is handled. *)
Example update_tested_on_old_labels :
  let old := v1.mkPod "kube-apiserver-m1" "uid-1" {[ "component" := "kube-apiserver" ]}
               (v1.mkPodStatus "" []) in
  let new := v1.mkPod "kube-apiserver-m1" "uid-1" ∅
               (v1.mkPodStatus "10.0.0.5" [v1.mkContainerStatus true]) in
  let r := NewReverseProxy (Some ["10.0.0.2"]) in
  isAPIServer new = false
  ∧ registered (handle ["uid-1"] (Updated old new) r) "uid-1"
    = Some (mkBackend "uid-1" "10.0.0.5" 0).
Proof. by vm_compute. Qed.

Lemma C10_other_pods_ignored_witness :
  let labels : gmap string string := {[ "k8s-app" := "kube-dns" ]} in
  let old := v1.mkPod "coredns-1" "uid-9" labels (v1.mkPodStatus "" []) in
  let new := v1.mkPod "coredns-1" "uid-9" labels
               (v1.mkPodStatus "10.0.0.9" [v1.mkContainerStatus false]) in
  let r := NewReverseProxy (Some ["10.0.0.2"]) in
  handle [] (Updated old new) r = r.
Proof.
  apply (C10_other_pods_ignored []
           (Updated
              (v1.mkPod "coredns-1" "uid-9" {[ "k8s-app" := "kube-dns" ]} (v1.mkPodStatus "" []))
              (v1.mkPod "coredns-1" "uid-9" {[ "k8s-app" := "kube-dns" ]}
                 (v1.mkPodStatus "10.0.0.9" [v1.mkContainerStatus false])))
           (NewReverseProxy (Some ["10.0.0.2"]))).
  - unfold carries. vm_compute. discriminate.
  - unfold carries. vm_compute. discriminate.
Defined.

(** ** The bootstrap prober *)

Example bootstrapUID_0 : bootstrapUID 0 = "bootstrap-0".
Proof. reflexivity. Qed.

Example bootstrapUID_12 : bootstrapUID 12 = "bootstrap-12".
Proof. reflexivity. Qed.

Section prober.
Implicit Types (r : ReverseProxy) (order : list string) (i : nat) (e : string).

(** The tasks that [bootstrap] starts are those of the endpoints, each
    with its index. *)
Lemma bootstrap_tasks r eps i e :
  endpoints r = Some eps → ((i, e) ∈ bootstrap r ↔ eps !! i = Some e).
Proof.
  intros Heps. unfold bootstrap. rewrite Heps. rewrite list_elem_of_lookup. split.
  - intros (j & Hj). rewrite list_lookup_imap in Hj.
    destruct (eps !! j) eqn:E; simpl in Hj; [| done]. by injection Hj as -> ->.
  - intros Hi. exists i. rewrite list_lookup_imap. by rewrite Hi.
Qed.

(** Ticks keep the task in its loop. *)
Lemma bootstrapTask_ticks i e (pre rest : list (Select * list string)) r :
  (∀ x, x ∈ pre → x.1 ≠ CtxDone) →
  bootstrapTask i e (pre ++ rest) r = bootstrapTask i e rest (bootstrapTask i e pre r).1.
Proof.
  revert r. induction pre as [|[sel order] pre IH]; intros r Hpre; simpl; [done |].
  assert (Hsel : sel ≠ CtxDone) by (apply (Hpre (sel, order)); by left).
  assert (Hrest : ∀ x, x ∈ pre → x.1 ≠ CtxDone) by (intros x Hx; apply Hpre; by right).
  destruct sel as [[|]|]; simpl; try done; by apply IH.
Qed.


End prober.



(** A task that added its backend on a tick and then takes the [Done]
    case. *)
Example bootstrap_task_run :
  let r := NewReverseProxy (Some ["10.0.0.2"; "10.0.0.3"]) in
  let pre := [(TickerC false, []); (TickerC true, ["bootstrap-1"])] in
  registered (bootstrapTask 1 "10.0.0.3" pre r).1 "bootstrap-1"
  = Some (mkBackend "bootstrap-1" "10.0.0.3" 0)
  ∧ bootstrapTask 1 "10.0.0.3" (pre ++ [(CtxDone, []); (TickerC true, ["bootstrap-1"])]) r
    = bootstrapTask 1 "10.0.0.3" (pre ++ [(CtxDone, [])]) r
  ∧ registered
      (bootstrapTask 1 "10.0.0.3" (pre ++ [(CtxDone, []); (TickerC true, ["bootstrap-1"])]) r).1
      "bootstrap-1" = None.
Proof. by vm_compute. Qed.

(** ** The connection proxy *)

Section proxy.
Implicit Types (r : ReverseProxy) (c : Conn).

(** The loop of [Listen] has no exit. *)
Lemma acceptLoop_accepting (script : list Accept) : (acceptLoop script).2 = Accepting.
Proof.
  induction script as [|[conn | err] script IH]; simpl; [done | |].
  - by destruct (acceptLoop script).
  - destruct (isNetError err && Temporary err); [done |]. by destruct (acceptLoop script).
Qed.

(** A temporary error starts no handler and the loop goes on. *)
Lemma acceptLoop_temporary (err : GoError) (script : list Accept) :
  isNetError err = true → Temporary err = true →
  acceptLoop (AcceptFailed err :: script) = acceptLoop script.
Proof. simpl. by intros -> ->. Qed.

(** Any other error starts a handler on the nil connection, and the loop
    goes on as well. *)
Lemma acceptLoop_fatal (err : GoError) (script : list Accept) :
  isNetError err && Temporary err = false →
  acceptLoop (AcceptFailed err :: script)
  = (None :: (acceptLoop script).1, (acceptLoop script).2).
Proof. simpl. intros ->. by destruct (acceptLoop script). Qed.

End proxy.

(** C3.  The design document states that a temporary accept error lets
    the loop of [Listen] continue, that any other accept error ends the
    loop and reaches the caller, and that no handler is started for a
    failed accept.  The loop tests the
    error for being temporary and has no branch for the other errors: on
    an error that is not temporary it falls through to
    [go r.proxyConnection(conn)] with the nil connection and then accepts
    again.  Here the first accept fails for good and the second succeeds:
    two handlers are started, the first on the nil connection, and
    [Listen] has not returned. *)
Theorem C3_listen_survives_fatal_accept_error :
  let closed := mkGoError true false in
  let conn := mkConn 7 true in
  Listen None [AcceptFailed closed; Accepted conn] = ([None; Some conn], Accepting)
  ∧ proxyConnection (NewReverseProxy None) None DialError = ([], Panics).
Proof. by vm_compute. Qed.

(** What holds of a handler that finds no selection, as on a new proxy,
    or whose dial fails: without a selection it closes the client
    connection and returns without a dial; after a failed dial it has
    dialled once, closes the client connection and returns.  In neither
    case is there a second dial, a change of a connection count or a
    copy. *)
Lemma proxyConnection_unavailable (r : ReverseProxy) (c : Conn) (dial : DialResult) :
  (GetBackend r = None →
     proxyConnection r (Some c) dial = ([Close c], Returns)
     ∧ filter is_dial (proxyConnection r (Some c) dial).1 = [])
  ∧ (∀ p b, GetBackend r = Some p → deref r p = Some b →
       proxyConnection r (Some c) DialError
       = ([Dial (Addr b +:+ ":6443") (ConnectTimeout r); Close c], Returns))
  ∧ (∀ eps, proxyConnection (NewReverseProxy eps) (Some c) dial = ([Close c], Returns)).
Proof.
  unfold proxyConnection. split; [| split].
  - by intros ->.
  - by intros p b -> ->.
  - done.
Qed.

(** C6.  The design document states that a handler that finds no backend
    available closes the client connection at once, with no dial at all
    when the registry is empty.  That holds of a registry that never held
    a backend, and a failed dial is followed by the close and nothing
    else.  It fails of a registry that was emptied by [DeleteBackend]:
    [GetBackend] then still returns the deleted backend, and the handler
    dials it; when that dial fails the client is closed after one dial,
    and when it succeeds the client is proxied to the deleted backend. *)
Theorem C6_emptied_registry_is_dialled :
  let s := [(OpAdd "a" "10.0.0.1", ["a"]); (OpDelete "a", [])] in
  let r := run s (NewReverseProxy None) in
  let c := mkConn 3 true in
  let c2 := mkConn 4 true in
  ranges_all s (NewReverseProxy None)
  ∧ backends r = ∅
  ∧ proxyConnection r (Some c) DialError = ([Dial "10.0.0.1:6443" 100; Close c], Returns)
  ∧ filter is_dial (proxyConnection r (Some c) DialError).1 = [Dial "10.0.0.1:6443" 100]
  ∧ proxyConnection r (Some c) (Dialed c2)
    = ([Dial "10.0.0.1:6443" 100; Increment "a"; Go c c2; Go c2 c; WgWait; Decrement "a"],
       Returns).
Proof.
  simpl. split; [| by vm_compute].
  split; [by vm_compute |]. split; [by vm_compute | done].
Qed.

Example dial_failure :
  let r := run [(OpAdd "a" "10.0.0.1", ["a"])] (NewReverseProxy None) in
  let c := mkConn 3 true in
  proxyConnection r (Some c) DialError = ([Dial "10.0.0.1:6443" 100; Close c], Returns).
Proof. by vm_compute. Qed.

(** After the last backend was deleted the handler still dials it. *)
Example dial_of_deleted_backend :
  let r := run [(OpAdd "a" "10.0.0.1", ["a"]); (OpDelete "a", [])] (NewReverseProxy None) in
  let c := mkConn 3 true in
  proxyConnection r (Some c) DialError = ([Dial "10.0.0.1:6443" 100; Close c], Returns).
Proof. by vm_compute. Qed.

(** * Further properties of the registry *)

Section registry_operations.
Implicit Types (r : ReverseProxy) (order : list string) (uid : string).

Lemma registered_alloc r uid addr k :
  wf r → backends r !! uid = None →
  registered (set_backends (<[uid := length (objects r)]> (backends r))
                (set_objects (objects r ++ [mkBackend uid addr 0]) r)) k
  = if decide (k = uid) then Some (mkBackend uid addr 0) else registered r k.
Proof.
  intros Hwf Hfresh. unfold registered. simpl. rewrite lookup_insert.
  destruct (decide (k = uid)) as [-> | Hne].
  - rewrite decide_True by done. simpl.
    rewrite lookup_app_r by done. by rewrite Nat.sub_diag.
  - rewrite decide_False by done.
    destruct (backends r !! k) as [l|] eqn:Hl; simpl; [| done].
    apply lookup_app_l. by eapply wf_backends.
Qed.

Lemma registered_store r uid l b b' k :
  wf r → backends r !! uid = Some l → objects r !! l = Some b →
  registered (set_objects (<[l := b']> (objects r)) r) k
  = if decide (k = uid) then Some b' else registered r k.
Proof.
  intros Hwf Hl Hb. unfold registered. simpl.
  destruct (decide (k = uid)) as [-> | Hne].
  - rewrite Hl. simpl. apply list_lookup_insert_eq. by eapply lookup_lt_Some.
  - destruct (backends r !! k) as [l'|] eqn:Hl'; simpl; [| done].
    apply list_lookup_insert_ne. intros <-. apply Hne. by eapply (wf_inj r Hwf).
Qed.

Lemma registered_AddBackend order r uid addr k :
  wf r →
  registered (AddBackend order uid addr r).1 k
  = if decide (k = uid)
    then Some (default (mkBackend uid addr 0) (registered r uid))
    else registered r k.
Proof.
  intros Hwf. unfold AddBackend. destruct (backends r !! uid) as [l|] eqn:Hl; simpl.
  - case_decide as Hk; [subst k | done]. unfold registered. rewrite Hl. simpl.
    destruct (lookup_lt_is_Some_2 (objects r) l) as [b Hb]; [by eapply wf_backends |].
    by rewrite Hb.
  - rewrite registered_setCurrent, registered_alloc by done.
    case_decide; [| done]. unfold registered. by rewrite Hl.
Qed.

Lemma registered_IncrementBackend order r uid k :
  wf r →
  registered (IncrementBackend order uid r) k
  = (λ b, if decide (k = uid) then with_connections (uint32_incr (Connections b)) b else b)
      <$> registered r k.
Proof.
  intros Hwf. unfold IncrementBackend.
  destruct (backends r !! uid) as [l|] eqn:Hl.
  2:{ destruct (registered r k) as [b|] eqn:Hk; simpl; [| done].
      case_decide; [subst k | done]. unfold registered in Hk. by rewrite Hl in Hk. }
  destruct (lookup_lt_is_Some_2 (objects r) l) as [b Hb]; [by eapply wf_backends |].
  rewrite Hb, registered_setCurrent, (registered_store r uid l b) by done.
  case_decide as Hk.
  - subst k. unfold registered. rewrite Hl. simpl. by rewrite Hb.
  - by destruct (registered r k).
Qed.

Lemma registered_DecrementBackend order r uid k :
  wf r →
  registered (DecrementBackend order uid r) k
  = (λ b, if decide (k = uid)
          then (if Connections b =? 0 then b
                else with_connections (uint32_decr (Connections b)) b)
          else b)
      <$> registered r k.
Proof.
  intros Hwf. unfold DecrementBackend.
  destruct (backends r !! uid) as [l|] eqn:Hl.
  2:{ destruct (registered r k) as [b|] eqn:Hk; simpl; [| done].
      case_decide; [subst k | done]. unfold registered in Hk. by rewrite Hl in Hk. }
  destruct (lookup_lt_is_Some_2 (objects r) l) as [b Hb]; [by eapply wf_backends |].
  rewrite Hb. destruct (Connections b =? 0) eqn:H0.
  - destruct (registered r k) as [b'|] eqn:Hk; simpl; [| done].
    case_decide; [subst k | done]. unfold registered in Hk. rewrite Hl in Hk. simpl in Hk.
    assert (b' = b) as -> by congruence. by rewrite H0.
  - rewrite registered_setCurrent, (registered_store r uid l b) by done.
    case_decide as Hk.
    + subst k. unfold registered. rewrite Hl. simpl. rewrite Hb. simpl. by rewrite H0.
    + by destruct (registered r k).
Qed.

Lemma setCurrent_keeps_selection order r :
  is_Some (current r) → is_Some (current (setCurrent order r)).
Proof.
  unfold setCurrent. simpl. generalize MaxUint32. generalize (current r).
  induction order as [|k order IH] using rev_ind; intros c least Hc; simpl; [done |].
  rewrite foldl_app. simpl. unfold setCurrent_body at 1.
  destruct (backends r !! k) as [l|]; [| by apply IH].
  destruct (objects r !! l) as [b|]; [| by apply IH].
  destruct ((Connections b =? 0) || _); [done | by apply IH].
Qed.

End registry_operations.

(** X1.  [AddBackend] of an identifier that is not registered returns
    true and registers a backend with that identifier, the given address
    and no connection; every other entry of the registry is as before. *)
Theorem X1_add_registers_fresh
    (s : list (Op * list string)) (eps : option (list string))
    (order : list string) (uid addr : string) :
  backends (run s (NewReverseProxy eps)) !! uid = None →
  let r := run s (NewReverseProxy eps) in
  (AddBackend order uid addr r).2 = true
  ∧ registered (AddBackend order uid addr r).1 uid = Some (mkBackend uid addr 0)
  ∧ ∀ uid', uid' ≠ uid → registered (AddBackend order uid addr r).1 uid' = registered r uid'.
Proof.
  pose proof (run_wf s eps) as Hwf. revert Hwf.
  generalize (run s (NewReverseProxy eps)). intros r Hwf Hfresh. simpl.
  split; [| split].
  - unfold AddBackend. by rewrite Hfresh.
  - rewrite registered_AddBackend, decide_True by done.
    unfold registered. by rewrite Hfresh.
  - intros uid' Hne. by rewrite registered_AddBackend, decide_False.
Qed.

Lemma X1_add_registers_fresh_witness :
  let r := run [(OpAdd "a" "10.0.0.1", ["a"])] (NewReverseProxy None) in
  (AddBackend ["a"; "b"] "b" "10.0.0.2" r).2 = true
  ∧ registered (AddBackend ["a"; "b"] "b" "10.0.0.2" r).1 "b" = Some (mkBackend "b" "10.0.0.2" 0)
  ∧ ∀ uid', uid' ≠ "b" →
      registered (AddBackend ["a"; "b"] "b" "10.0.0.2" r).1 uid' = registered r uid'.
Proof.
  apply (X1_add_registers_fresh [(OpAdd "a" "10.0.0.1", ["a"])] None ["a"; "b"] "b" "10.0.0.2").
  vm_compute. reflexivity.
Defined.

(** X2.  A second [AddBackend] with the identifier of a first one returns
    false and leaves the proxy as the first left it, whatever address it
    is given: the address of a registered backend is never replaced. *)
Theorem X2_add_twice (order1 order2 : list string) (uid addr1 addr2 : string)
    (r : ReverseProxy) :
  AddBackend order2 uid addr2 (AddBackend order1 uid addr1 r).1
  = ((AddBackend order1 uid addr1 r).1, false).
Proof.
  unfold AddBackend at 2 3. destruct (backends r !! uid) as [l|] eqn:Hl; simpl.
  - unfold AddBackend. by rewrite Hl.
  - unfold AddBackend. rewrite setCurrent_backends. simpl. by rewrite lookup_insert_eq.
Qed.

(** X3.  [DeleteBackend] returns true exactly when the identifier was
    registered; after it the identifier is not registered, and every other
    entry of the registry is as before. *)
Theorem X3_delete_removes (order : list string) (uid : string) (r : ReverseProxy) :
  ((DeleteBackend order uid r).2 = true ↔ is_Some (backends r !! uid))
  ∧ registered (DeleteBackend order uid r).1 uid = None
  ∧ ∀ uid', uid' ≠ uid → registered (DeleteBackend order uid r).1 uid' = registered r uid'.
Proof.
  split; [| split].
  - unfold DeleteBackend. destruct (backends r !! uid) as [l|]; simpl.
    + split; eauto.
    + split; [done | by intros [? ?]].
  - unfold registered. by rewrite DeleteBackend_gone.
  - intros uid' Hne. by apply DeleteBackend_other.
Qed.

(** X4.  Adding a backend under an identifier that is not registered and
    deleting it again gives back the registry: every identifier is
    registered as before, with the same address and count. *)
Theorem X4_add_delete_round_trip
    (s : list (Op * list string)) (eps : option (list string))
    (order1 order2 : list string) (uid addr : string) :
  backends (run s (NewReverseProxy eps)) !! uid = None →
  let r := run s (NewReverseProxy eps) in
  ∀ k, registered (DeleteBackend order2 uid (AddBackend order1 uid addr r).1).1 k
       = registered r k.
Proof.
  pose proof (run_wf s eps) as Hwf. revert Hwf.
  generalize (run s (NewReverseProxy eps)). intros r Hwf Hfresh. simpl. intros k.
  destruct (decide (k = uid)) as [-> | Hne].
  - unfold registered at 1. rewrite DeleteBackend_gone. simpl.
    unfold registered. by rewrite Hfresh.
  - rewrite DeleteBackend_other by done.
    by rewrite registered_AddBackend, decide_False.
Qed.

Lemma X4_add_delete_round_trip_witness :
  let r := run [(OpAdd "a" "10.0.0.1", ["a"]); (OpIncrement "a", ["a"])] (NewReverseProxy None) in
  let r' := (DeleteBackend ["a"] "b" (AddBackend ["b"; "a"] "b" "10.0.0.2" r).1).1 in
  registered r' "a" = registered r "a" ∧ registered r' "b" = registered r "b".
Proof.
  assert (H := X4_add_delete_round_trip
                 [(OpAdd "a" "10.0.0.1", ["a"]); (OpIncrement "a", ["a"])] None
                 ["b"; "a"] ["a"] "b" "10.0.0.2" eq_refl).
  split; apply H.
Defined.

(** X5.  In every state that a sequence of operations reaches,
    [IncrementBackend] adds one, modulo 2^32, to the count of the backend
    registered under the identifier and changes nothing else of the
    registry: no identifier is added or removed, identifiers and addresses
    stay, and so do the counts of the other backends.  For an identifier
    that is not registered it returns the proxy as it is. *)
Theorem X5_increment_counts
    (s : list (Op * list string)) (eps : option (list string))
    (order : list string) (uid : string) :
  let r := run s (NewReverseProxy eps) in
  (backends r !! uid = None → IncrementBackend order uid r = r)
  ∧ ∀ k, registered (IncrementBackend order uid r) k
         = (λ b, if decide (k = uid)
                 then mkBackend (UID b) (Addr b) ((Connections b + 1) mod 2 ^ 32)
                 else b) <$> registered r k.
Proof.
  pose proof (run_wf s eps) as Hwf. revert Hwf.
  generalize (run s (NewReverseProxy eps)). intros r Hwf. simpl. split.
  - intros Hnone. unfold IncrementBackend. by rewrite Hnone.
  - intros k. by rewrite registered_IncrementBackend.
Qed.

(** X6.  An [IncrementBackend] followed by a [DecrementBackend] of the
    same identifier gives back the registry, provided the count of the
    backend was below [MaxUint32]. *)
Theorem X6_increment_decrement_round_trip
    (s : list (Op * list string)) (eps : option (list string))
    (order1 order2 : list string) (uid : string) (b : Backend) :
  registered (run s (NewReverseProxy eps)) uid = Some b →
  Connections b < MaxUint32 →
  let r := run s (NewReverseProxy eps) in
  ∀ k, registered (DecrementBackend order2 uid (IncrementBackend order1 uid r)) k
       = registered r k.
Proof.
  pose proof (run_wf s eps) as Hwf. revert Hwf.
  generalize (run s (NewReverseProxy eps)). intros r Hwf Hb Hlt. simpl. intros k.
  assert (Hwf' : wf (IncrementBackend order1 uid r))
    by apply (exec_wf order1 (OpIncrement uid) r Hwf).
  rewrite registered_DecrementBackend, registered_IncrementBackend by done.
  destruct (decide (k = uid)) as [-> | Hne].
  - rewrite Hb. simpl.
    apply registered_Some in Hb as (l & Hl & Hobj).
    pose proof (wf_counts r Hwf _ _ Hobj) as Hrange.
    assert (Hinc : uint32_incr (Connections b) = Connections b + 1).
    { unfold uint32_incr. apply Z.mod_small. unfold MaxUint32 in *. lia. }
    rewrite Hinc. destruct (Connections b + 1 =? 0) eqn:H0; [apply Z.eqb_eq in H0; lia |].
    unfold with_connections. simpl. f_equal. rewrite uint32_decr_pos by lia.
    destruct b. simpl. f_equal. lia.
  - by destruct (registered r k).
Qed.

Lemma X6_increment_decrement_round_trip_witness :
  let r := run [(OpAdd "a" "10.0.0.1", ["a"])] (NewReverseProxy None) in
  registered (DecrementBackend ["a"] "a" (IncrementBackend ["a"] "a" r)) "a"
  = registered r "a".
Proof.
  apply (X6_increment_decrement_round_trip [(OpAdd "a" "10.0.0.1", ["a"])] None
           ["a"] ["a"] "a" (mkBackend "a" "10.0.0.1" 0)).
  - vm_compute. reflexivity.
  - vm_compute. reflexivity.
Defined.

(** * Further properties of the selection *)

Section selection_invariants.
Implicit Types (r : ReverseProxy) (order : list string) (uid : string).

Lemma exec_selected_once_added order op r :
  wf r → selected_once_added r → ranges order (exec order op r) →
  selected_once_added (exec order op r).
Proof.
  intros Hwf Hsel Hord. destruct op as [uid addr | uid | uid | uid]; simpl in *.
  - unfold AddBackend in *. destruct (backends r !! uid) as [l|] eqn:Hl; simpl in *; [done |].
    intros _.
    destruct (setCurrent_selects_least order _ (wf_alloc r uid addr Hwf Hl) Hord) as (p & Hp & _).
    + exists uid, (mkBackend uid addr 0). split; [| done].
      rewrite registered_setCurrent, registered_alloc by done. by rewrite decide_True.
    + unfold GetBackend in Hp. by rewrite Hp.
  - unfold DeleteBackend. destruct (backends r !! uid); simpl;
      intros Hobj; apply setCurrent_keeps_selection; by apply Hsel.
  - unfold IncrementBackend. destruct (backends r !! uid) as [l|]; [| done].
    destruct (objects r !! l) as [b|] eqn:Hb; [| done].
    intros Hobj. apply setCurrent_keeps_selection. simpl. apply Hsel.
    intros Hnil. by rewrite Hnil in Hb.
  - unfold DecrementBackend. destruct (backends r !! uid) as [l|]; [| done].
    destruct (objects r !! l) as [b|] eqn:Hb; [| done].
    destruct (Connections b =? 0); [done |].
    intros Hobj. apply setCurrent_keeps_selection. simpl. apply Hsel.
    intros Hnil. by rewrite Hnil in Hb.
Qed.

Lemma run_selected_once_added s r :
  wf r → selected_once_added r → ranges_all s r → selected_once_added (run s r).
Proof.
  revert r. induction s as [|[op order] s IH]; intros r Hwf Hsel Hord; simpl in *; [done |].
  destruct Hord as [Hord Hrest].
  apply IH; [by apply exec_wf | by apply exec_selected_once_added | done].
Qed.

Lemma exec_keyed order op r : wf r → keyed r → keyed (exec order op r).
Proof.
  intros Hwf Hkey. destruct op as [uid addr | uid | uid | uid]; simpl.
  - unfold AddBackend. destruct (backends r !! uid) as [l|] eqn:Hl; simpl; [done |].
    intros k l b. simpl. rewrite lookup_insert. case_decide as Hk.
    + intros [= <-]. rewrite lookup_app_r by done. rewrite Nat.sub_diag. simpl.
      by intros [= <-].
    + intros Hkl Hb. rewrite lookup_app_l in Hb by by eapply wf_backends. by eapply Hkey.
  - unfold DeleteBackend. destruct (backends r !! uid); simpl; [| done].
    intros k l b. simpl. intros [_ Hkl]%lookup_delete_Some. by apply Hkey.
  - unfold IncrementBackend. destruct (backends r !! uid) as [l|] eqn:Hl; [| done].
    destruct (objects r !! l) as [b|] eqn:Hb; [| done].
    intros k l' b'. simpl. intros Hkl. destruct (decide (l = l')) as [<- | Hne].
    + rewrite list_lookup_insert_eq by by eapply lookup_lt_Some.
      intros [= <-]. simpl. by eapply Hkey.
    + rewrite list_lookup_insert_ne by done. by apply Hkey.
  - unfold DecrementBackend. destruct (backends r !! uid) as [l|] eqn:Hl; [| done].
    destruct (objects r !! l) as [b|] eqn:Hb; [| done].
    destruct (Connections b =? 0); [done |].
    intros k l' b'. simpl. intros Hkl. destruct (decide (l = l')) as [<- | Hne].
    + rewrite list_lookup_insert_eq by by eapply lookup_lt_Some.
      intros [= <-]. simpl. by eapply Hkey.
    + rewrite list_lookup_insert_ne by done. by apply Hkey.
Qed.

(** A visit that fails the test of the [switch] changes nothing. *)
Lemma setCurrent_no_update r (rest : list string) (acc : Z * option loc) :
  (∀ k b, k ∈ rest → registered r k = Some b →
          Connections b ≠ 0 ∧ acc.1 ≤ Connections b) →
  foldl (setCurrent_body r) acc rest = acc.
Proof.
  induction rest as [|k rest IH] using rev_ind; intros Hrest; [done |].
  rewrite foldl_app. simpl. rewrite IH.
  2:{ intros k' b Hk'. apply Hrest. apply elem_of_app. by left. }
  unfold setCurrent_body. destruct (backends r !! k) as [l|] eqn:Hl; [| done].
  destruct (objects r !! l) as [b|] eqn:Hb; [| done].
  destruct (Hrest k b) as [H0 Hle].
  { apply elem_of_app. right. by apply list_elem_of_singleton. }
  { apply registered_Some. eauto. }
  apply Z.eqb_neq in H0. apply Z.ltb_ge in Hle. by rewrite H0, Hle.
Qed.

End selection_invariants.

(** X7.  After any sequence of operations from the empty registry, if
    some registered backend has a count below [MaxUint32] then
    [GetBackend] returns a pointer to a registered backend whose count is
    the least among the registered backends. *)
Theorem X7_selection_least_loaded
    (s : list (Op * list string)) (eps : option (list string)) :
  ranges_all s (NewReverseProxy eps) →
  selectable (run s (NewReverseProxy eps)) →
  let r := run s (NewReverseProxy eps) in
  ∃ p uid b,
    GetBackend r = Some p ∧ deref r p = Some b
    ∧ backends r !! uid = Some p ∧ registered r uid = Some b
    ∧ ∀ uid' b', registered r uid' = Some b' → Connections b ≤ Connections b'.
Proof.
  intros Hord Hsel. simpl.
  destruct (run_selects_least s eps Hord Hsel) as (p & Hp & uid & b & Hk & Hb & Hmin).
  exists p, uid, b. repeat split; try done.
  apply registered_Some. eauto.
Qed.

Lemma X7_selection_least_loaded_witness :
  let s := [(OpAdd "a" "10.0.0.1", ["a"]); (OpAdd "b" "10.0.0.2", ["b"; "a"]);
            (OpIncrement "a", ["a"; "b"])] in
  let r := run s (NewReverseProxy None) in
  ∃ p uid b,
    GetBackend r = Some p ∧ deref r p = Some b
    ∧ backends r !! uid = Some p ∧ registered r uid = Some b
    ∧ ∀ uid' b', registered r uid' = Some b' → Connections b ≤ Connections b'.
Proof.
  apply (X7_selection_least_loaded
           [(OpAdd "a" "10.0.0.1", ["a"]); (OpAdd "b" "10.0.0.2", ["b"; "a"]);
            (OpIncrement "a", ["a"; "b"])] None).
  - simpl. split; [by vm_compute |]. split; [vm_compute; apply perm_swap |].
    split; [by vm_compute | done].
  - exists "b", (mkBackend "b" "10.0.0.2" 0). split; by vm_compute.
Defined.

(** X8.  After any sequence of operations from the empty registry,
    [GetBackend] returns nil only if no backend was ever added: once an
    [AddBackend] has succeeded the selection is never nil again.  In
    particular it is not nil while a backend is registered, and the pointer
    it returns always refers to a backend that [AddBackend] allocated. *)
Theorem X8_selection_nil_only_before_first_add
    (s : list (Op * list string)) (eps : option (list string)) :
  ranges_all s (NewReverseProxy eps) →
  let r := run s (NewReverseProxy eps) in
  (GetBackend r = None ↔ objects r = [])
  ∧ (∀ uid, is_Some (backends r !! uid) → is_Some (GetBackend r))
  ∧ (∀ p, GetBackend r = Some p → is_Some (deref r p)).
Proof.
  intros Hord. simpl.
  pose proof (run_wf s eps) as Hwf.
  assert (Hsel : selected_once_added (run s (NewReverseProxy eps))).
  { apply run_selected_once_added; [apply NewReverseProxy_wf | | done].
    intros Hobj. by destruct Hobj. }
  revert Hwf Hsel. generalize (run s (NewReverseProxy eps)). intros r Hwf Hsel.
  unfold GetBackend, deref. split; [| split].
  - split.
    + intros Hnone. destruct (objects r) eqn:Hobj; [done |].
      destruct Hsel as [p Hp]; [by rewrite Hobj | congruence].
    + intros Hnil. destruct (current r) as [p|] eqn:Hp; [| done].
      apply (wf_current r Hwf) in Hp. rewrite Hnil in Hp. simpl in Hp. lia.
  - intros uid [l Hl]. apply Hsel. intros Hnil.
    apply (wf_backends r Hwf) in Hl. rewrite Hnil in Hl. simpl in Hl. lia.
  - intros p Hp. apply lookup_lt_is_Some_2. by apply (wf_current r Hwf).
Qed.

Lemma X8_selection_nil_only_before_first_add_witness :
  let r := run [(OpAdd "a" "10.0.0.1", ["a"]); (OpDelete "a", [])] (NewReverseProxy None) in
  (GetBackend r = None ↔ objects r = [])
  ∧ (∀ uid, is_Some (backends r !! uid) → is_Some (GetBackend r))
  ∧ (∀ p, GetBackend r = Some p → is_Some (deref r p)).
Proof.
  apply (X8_selection_nil_only_before_first_add
           [(OpAdd "a" "10.0.0.1", ["a"]); (OpDelete "a", [])] None).
  simpl. split; [by vm_compute |]. split; [by vm_compute | done].
Defined.

(** X9.  After any sequence of operations from the empty registry, the
    backend registered under an identifier has that identifier in its
    [UID] field, which is the identifier that [proxyConnection] passes to
    [IncrementBackend] and [DecrementBackend]. *)
Theorem X9_registered_under_own_uid
    (s : list (Op * list string)) (eps : option (list string))
    (uid : string) (b : Backend) :
  registered (run s (NewReverseProxy eps)) uid = Some b → UID b = uid.
Proof.
  assert (Hkey : wf (run s (NewReverseProxy eps)) ∧ keyed (run s (NewReverseProxy eps))).
  { generalize (NewReverseProxy_wf eps).
    assert (Hk0 : keyed (NewReverseProxy eps)) by (intros k l b'; simpl; by rewrite lookup_empty).
    revert Hk0. generalize (NewReverseProxy eps).
    induction s as [|[op order] s IH]; intros r Hk Hwf; simpl; [done |].
    apply IH; [by apply exec_keyed | by apply exec_wf]. }
  destruct Hkey as [_ Hkey].
  intros (l & Hl & Hb)%registered_Some. by eapply Hkey.
Qed.

Lemma X9_registered_under_own_uid_witness :
  UID (mkBackend "a" "10.0.0.1" 1) = "a".
Proof.
  apply (X9_registered_under_own_uid
           [(OpAdd "a" "10.0.0.1", ["a"]); (OpIncrement "a", ["a"])] None
           "a" (mkBackend "a" "10.0.0.1" 1)).
  vm_compute. reflexivity.
Defined.

(** X10.  How [setCurrent] breaks ties, in a state that a sequence of
    operations reaches.  Let the loop visit the keys [pre], then the key
    [k] of a registered backend, then the keys [post].  If the backend of
    [k] has no connection and no backend visited later has none either,
    [k] is selected: among idle backends the last one visited wins.  If
    its count is positive and below [MaxUint32], is smaller than the count
    of every backend visited earlier and not greater than that of any
    backend visited later, [k] is selected: among equally loaded busy
    backends the first one visited wins. *)
Theorem X10_tie_break_rule
    (s : list (Op * list string)) (eps : option (list string))
    (pre post : list string) (k : string) (l : loc) (b : Backend) :
  backends (run s (NewReverseProxy eps)) !! k = Some l →
  objects (run s (NewReverseProxy eps)) !! l = Some b →
  let r := run s (NewReverseProxy eps) in
  (Connections b = 0 →
   (∀ k' b', k' ∈ post → registered r k' = Some b' → Connections b' ≠ 0) →
   GetBackend (setCurrent (pre ++ k :: post) r) = Some l)
  ∧ (0 < Connections b < MaxUint32 →
     (∀ k' b', k' ∈ pre → registered r k' = Some b' → Connections b < Connections b') →
     (∀ k' b', k' ∈ post → registered r k' = Some b' → Connections b ≤ Connections b') →
     GetBackend (setCurrent (pre ++ k :: post) r) = Some l).
Proof.
  pose proof (run_wf s eps) as Hwf. revert Hwf.
  generalize (run s (NewReverseProxy eps)). intros r Hwf Hl Hb. simpl.
  assert (Hcounts := wf_counts r Hwf).
  unfold GetBackend, setCurrent. simpl.
  replace (pre ++ k :: post)%list with ((pre ++ [k]) ++ post)%list by by rewrite <- app_assoc.
  rewrite !foldl_app. simpl.
  set (acc := foldl (setCurrent_body r) (MaxUint32, current r) pre).
  split.
  - intros H0 Hpost.
    assert (Hk : setCurrent_body r acc k = (0, Some l)).
    { unfold setCurrent_body. by rewrite Hl, Hb, H0. }
    rewrite Hk, setCurrent_no_update; [done |].
    intros k' b' Hk' Hreg. split; [by eapply Hpost |]. simpl.
    apply registered_Some in Hreg as (l' & _ & Hb'). apply Hcounts in Hb'. lia.
  - intros Hpos Hpre Hpost.
    assert (Hacc : Connections b < acc.1).
    { destruct (setCurrent_loop_inv r (current r) pre Hcounts) as [_ Hsel]. fold acc in Hsel.
      destruct Hsel as [[-> _] | (k' & l' & b' & Hk' & Hl' & Hb' & ->)]; simpl; [lia |].
      eapply Hpre; [done |]. apply registered_Some. eauto. }
    assert (Hk : setCurrent_body r acc k = (Connections b, Some l)).
    { unfold setCurrent_body. rewrite Hl, Hb.
      apply Z.ltb_lt in Hacc. rewrite Hacc. by rewrite orb_true_r. }
    rewrite Hk, setCurrent_no_update; [done |].
    intros k' b' Hk' Hreg. simpl. specialize (Hpost _ _ Hk' Hreg). lia.
Qed.

Lemma X10_tie_break_rule_witness :
  let s := [(OpAdd "a" "10.0.0.1", ["a"]); (OpAdd "b" "10.0.0.2", ["a"; "b"]);
            (OpIncrement "a", ["a"; "b"]); (OpIncrement "b", ["a"; "b"])] in
  let r := run s (NewReverseProxy None) in
  let b := mkBackend "a" "10.0.0.1" 1 in
  (Connections b = 0 →
   (∀ k' b', k' ∈ ["b"] → registered r k' = Some b' → Connections b' ≠ 0) →
   GetBackend (setCurrent ([] ++ "a" :: ["b"]) r) = Some 0%nat)
  ∧ (0 < Connections b < MaxUint32 →
     (∀ k' b', k' ∈ [] → registered r k' = Some b' → Connections b < Connections b') →
     (∀ k' b', k' ∈ ["b"] → registered r k' = Some b' → Connections b ≤ Connections b') →
     GetBackend (setCurrent ([] ++ "a" :: ["b"]) r) = Some 0%nat).
Proof.
  apply (X10_tie_break_rule
           [(OpAdd "a" "10.0.0.1", ["a"]); (OpAdd "b" "10.0.0.2", ["a"; "b"]);
            (OpIncrement "a", ["a"; "b"]); (OpIncrement "b", ["a"; "b"])] None
           [] ["b"] "a" 0%nat (mkBackend "a" "10.0.0.1" 1)).
  - vm_compute. reflexivity.
  - vm_compute. reflexivity.
Defined.

(** Both backends carry one connection; the one visited first is
    selected. *)
Example first_minimum_wins :
  let s := [(OpAdd "a" "10.0.0.1", ["a"]); (OpAdd "b" "10.0.0.2", ["a"; "b"]);
            (OpIncrement "a", ["a"; "b"])] in
  let r := run s (NewReverseProxy None) in
  GetBackend (IncrementBackend ["a"; "b"] "b" r) = Some 0%nat
  ∧ GetBackend (IncrementBackend ["b"; "a"] "b" r) = Some 1%nat.
Proof. by vm_compute. Qed.

(** * Further properties of the watcher, the prober and the proxy *)

Section more_watcher.
Implicit Types (r : ReverseProxy) (order : list string) (pod : v1.Pod).

Lemma DeleteBackend_registered_None order r uid k :
  registered r k = None → registered (DeleteBackend order uid r).1 k = None.
Proof.
  intros Hk. destruct (decide (k = uid)) as [-> | Hne].
  - unfold registered. by rewrite DeleteBackend_gone.
  - by rewrite DeleteBackend_other.
Qed.

Lemma bootstrapUID_inj i j : bootstrapUID i = bootstrapUID j → i = j.
Proof.
  unfold bootstrapUID. intros H. apply (inj (String.app "bootstrap-")) in H.
  by apply (inj pretty) in H.
Qed.

Lemma tasks_done_snoc (ts : list ((nat * string) * list string)) t r :
  tasks_done (ts ++ [t]) r
  = (DeleteBackend t.2 (bootstrapUID t.1.1) (tasks_done ts r)).1.
Proof. unfold tasks_done. by rewrite foldl_app. Qed.

Lemma tasks_done_removes (ts : list ((nat * string) * list string)) r t :
  t ∈ ts → registered (tasks_done ts r) (bootstrapUID t.1.1) = None.
Proof.
  induction ts as [|t' ts IH] using rev_ind; intros Hin; [by apply elem_of_nil in Hin |].
  rewrite tasks_done_snoc. apply elem_of_app in Hin as [Hin | ->%list_elem_of_singleton].
  - by apply DeleteBackend_registered_None, IH.
  - unfold registered. by rewrite DeleteBackend_gone.
Qed.

Lemma tasks_done_others (ts : list ((nat * string) * list string)) r uid :
  (∀ t, t ∈ ts → uid ≠ bootstrapUID t.1.1) →
  registered (tasks_done ts r) uid = registered r uid.
Proof.
  induction ts as [|t' ts IH] using rev_ind; intros Hne; [done |].
  rewrite tasks_done_snoc, DeleteBackend_other.
  - apply IH. intros t Ht. apply Hne, elem_of_app. by left.
  - intros Heq. apply (Hne t'); [| done]. apply elem_of_app. right.
    by apply list_elem_of_singleton.
Qed.

End more_watcher.

(** X11.  [isAPIServer] holds exactly of the pods that carry the label
    [component] with the value [kube-apiserver] or the label [k8s-app]
    with the value [self-hosted-kube-apiserver]: the presence of a key
    with another value does not count. *)
Theorem X11_isAPIServer_labels (pod : v1.Pod) :
  isAPIServer pod = true ↔
  v1.Labels pod !! "component" = Some "kube-apiserver"
  ∨ v1.Labels pod !! "k8s-app" = Some "self-hosted-kube-apiserver".
Proof.
  unfold isAPIServer.
  destruct (v1.Labels pod !! "component") as [component|] eqn:Hc.
  - destruct (String.eqb_spec component "kube-apiserver") as [-> | Hne].
    + split; [by left | done].
    + destruct (v1.Labels pod !! "k8s-app") as [k8sApp|] eqn:Hk.
      * destruct (String.eqb_spec k8sApp "self-hosted-kube-apiserver") as [-> | Hne'].
        -- split; [by right | done].
        -- split; [done | intros [[= ?] | [= ?]]; done].
      * split; [done | intros [[= ?] | [=]]; done].
  - destruct (v1.Labels pod !! "k8s-app") as [k8sApp|] eqn:Hk.
    + destruct (String.eqb_spec k8sApp "self-hosted-kube-apiserver") as [-> | Hne'].
      * split; [by right | done].
      * split; [done | intros [[=] | [= ?]]; done].
    + split; [done | intros [[=] | [=]]].
Qed.

(** X12.  The delete event of an API server pod removes the backend
    registered under the UID of the pod, whatever the IP and the readiness
    of the pod; the other backends stay, and so do the endpoints and the
    bootstrap context: a delete event never fires the cutover. *)
Theorem X12_delete_event (order : list string) (pod : v1.Pod) (r : ReverseProxy) :
  isAPIServer pod = true →
  registered (DeleteFunc order pod r) (v1.UID pod) = None
  ∧ (∀ uid, uid ≠ v1.UID pod → registered (DeleteFunc order pod r) uid = registered r uid)
  ∧ endpoints (DeleteFunc order pod r) = endpoints r
  ∧ bootstrapCtx (DeleteFunc order pod r) = bootstrapCtx r.
Proof.
  intros Hapi. unfold DeleteFunc. rewrite Hapi. simpl.
  split; [| split].
  - unfold registered. by rewrite DeleteBackend_gone.
  - intros uid Hne. by apply DeleteBackend_other.
  - apply DeleteBackend_cutover.
Qed.

Lemma X12_delete_event_witness :
  let pod := v1.mkPod "kube-apiserver-m1" "uid-1" {[ "component" := "kube-apiserver" ]}
               (v1.mkPodStatus "" [v1.mkContainerStatus false]) in
  let r := run [(OpAdd "uid-1" "10.0.0.5", ["uid-1"])] (NewReverseProxy (Some ["10.0.0.2"])) in
  registered (DeleteFunc [] pod r) (v1.UID pod) = None
  ∧ (∀ uid, uid ≠ v1.UID pod → registered (DeleteFunc [] pod r) uid = registered r uid)
  ∧ endpoints (DeleteFunc [] pod r) = endpoints r
  ∧ bootstrapCtx (DeleteFunc [] pod r) = bootstrapCtx r.
Proof.
  apply (X12_delete_event []
           (v1.mkPod "kube-apiserver-m1" "uid-1" {[ "component" := "kube-apiserver" ]}
              (v1.mkPodStatus "" [v1.mkContainerStatus false]))
           (run [(OpAdd "uid-1" "10.0.0.5", ["uid-1"])] (NewReverseProxy (Some ["10.0.0.2"])))).
  vm_compute. reflexivity.
Defined.

(** X13.  The update of an API server pod all of whose containers are
    ready registers the pod, under the UID and the IP of its new state,
    and fires the cutover, when the pod had no IP before and has one now.
    In every other case it does nothing: a pod that already had an IP is
    not registered by an update, also not when its containers have just
    become ready. *)
Theorem X13_update_event_ready (order : list string) (old new : v1.Pod) (r : ReverseProxy) :
  isAPIServer old = true →
  (∀ status, status ∈ v1.ContainerStatuses (v1.Status new) → v1.Ready status = true) →
  (v1.PodIP (v1.Status old) = "" → v1.PodIP (v1.Status new) ≠ "" →
   UpdateFunc order old new r
   = stopBootstrapBackends
       (AddBackend order (v1.UID new) (v1.PodIP (v1.Status new)) r).1)
  ∧ (v1.PodIP (v1.Status old) ≠ "" ∨ v1.PodIP (v1.Status new) = "" →
     UpdateFunc order old new r = r).
Proof.
  intros Hapi Hready. apply anyNotReady_false in Hready.
  unfold UpdateFunc. rewrite Hapi, Hready. simpl. split.
  - intros -> Hnew. simpl. by destruct (String.eqb_spec (v1.PodIP (v1.Status new)) "").
  - intros [Hold | ->].
    + by destruct (String.eqb_spec (v1.PodIP (v1.Status old)) "").
    + simpl. by rewrite andb_false_r.
Qed.

Lemma X13_update_event_ready_witness :
  let labels : gmap string string := {[ "component" := "kube-apiserver" ]} in
  let old := v1.mkPod "kube-apiserver-m1" "uid-1" labels
               (v1.mkPodStatus "10.0.0.5" [v1.mkContainerStatus false]) in
  let new := v1.mkPod "kube-apiserver-m1" "uid-1" labels
               (v1.mkPodStatus "10.0.0.5" [v1.mkContainerStatus true]) in
  let r := NewReverseProxy (Some ["10.0.0.2"]) in
  (v1.PodIP (v1.Status old) = "" → v1.PodIP (v1.Status new) ≠ "" →
   UpdateFunc ["uid-1"] old new r
   = stopBootstrapBackends
       (AddBackend ["uid-1"] (v1.UID new) (v1.PodIP (v1.Status new)) r).1)
  ∧ (v1.PodIP (v1.Status old) ≠ "" ∨ v1.PodIP (v1.Status new) = "" →
     UpdateFunc ["uid-1"] old new r = r).
Proof.
  apply (X13_update_event_ready ["uid-1"]
           (v1.mkPod "kube-apiserver-m1" "uid-1" {[ "component" := "kube-apiserver" ]}
              (v1.mkPodStatus "10.0.0.5" [v1.mkContainerStatus false]))
           (v1.mkPod "kube-apiserver-m1" "uid-1" {[ "component" := "kube-apiserver" ]}
              (v1.mkPodStatus "10.0.0.5" [v1.mkContainerStatus true]))
           (NewReverseProxy (Some ["10.0.0.2"]))).
  - vm_compute. reflexivity.
  - simpl. intros status [-> | []%elem_of_nil]%elem_of_cons. reflexivity.
Defined.

(** X14.  In every state that a sequence of operations reaches, an
    iteration of the bootstrap task of index [i] leaves every entry of
    the registry other than [bootstrap-<i>] as it is, whatever its
    [select] received; and the tasks of different indices have different
    identifiers, so that no task adds or deletes the backend of another. *)
Theorem X14_task_touches_own_backend_only
    (s : list (Op * list string)) (eps : option (list string))
    (order : list string) (i : nat) (e : string) (sel : Select) :
  let r := run s (NewReverseProxy eps) in
  (∀ uid, uid ≠ bootstrapUID i →
     registered (bootstrapIteration order i e sel r).1 uid = registered r uid)
  ∧ (∀ j, j ≠ i → bootstrapUID j ≠ bootstrapUID i).
Proof.
  pose proof (run_wf s eps) as Hwf. revert Hwf.
  generalize (run s (NewReverseProxy eps)). intros r Hwf. simpl. split.
  - intros uid Hne. destruct sel as [[|]|]; simpl.
    + by rewrite registered_AddBackend, decide_False.
    + by apply DeleteBackend_other.
    + by apply DeleteBackend_other.
  - intros j Hne Heq. by apply Hne, bootstrapUID_inj.
Qed.

(** X15.  Once each of the tasks that [bootstrap] started has taken the
    [Done] case of its [select], in whatever order, the registry holds no
    backend [bootstrap-<i>] for any index [i] of the endpoints, and every
    backend under another identifier is registered as before. *)
Theorem X15_no_bootstrap_backend_left
    (r0 r : ReverseProxy) (eps : list string)
    (ts : list ((nat * string) * list string)) :
  endpoints r0 = Some eps →
  ts.*1 ≡ₚ bootstrap r0 →
  (∀ i, (i < length eps)%nat → registered (tasks_done ts r) (bootstrapUID i) = None)
  ∧ (∀ uid, (∀ i, (i < length eps)%nat → uid ≠ bootstrapUID i) →
       registered (tasks_done ts r) uid = registered r uid).
Proof.
  intros Heps Hts. split.
  - intros i Hi. destruct (lookup_lt_is_Some_2 eps i Hi) as [e He].
    assert (Hin : (i, e) ∈ ts.*1).
    { rewrite Hts. by apply (bootstrap_tasks r0 eps). }
    apply list_elem_of_fmap in Hin as (t & Ht & Hin).
    replace i with t.1.1 by by rewrite <- Ht. by apply tasks_done_removes.
  - intros uid Hne. apply tasks_done_others. intros [[i e] order] Hin. simpl.
    apply Hne. assert (Hie : (i, e) ∈ ts.*1).
    { apply list_elem_of_fmap. by exists (i, e, order). }
    rewrite Hts in Hie. apply (bootstrap_tasks r0 eps) in Hie; [| done].
    by eapply lookup_lt_Some.
Qed.

Lemma X15_no_bootstrap_backend_left_witness :
  let r0 := NewReverseProxy (Some ["10.0.0.2"; "10.0.0.3"]) in
  let r := run [(OpAdd "bootstrap-1" "10.0.0.3", ["bootstrap-1"]);
                (OpAdd "uid-1" "10.0.0.5", ["bootstrap-1"; "uid-1"])] r0 in
  let ts := [((1%nat, "10.0.0.3"), ["uid-1"]); ((0%nat, "10.0.0.2"), ["uid-1"])] in
  (∀ i, (i < 2)%nat → registered (tasks_done ts r) (bootstrapUID i) = None)
  ∧ (∀ uid, (∀ i, (i < 2)%nat → uid ≠ bootstrapUID i) →
       registered (tasks_done ts r) uid = registered r uid).
Proof.
  apply (X15_no_bootstrap_backend_left
           (NewReverseProxy (Some ["10.0.0.2"; "10.0.0.3"]))
           (run [(OpAdd "bootstrap-1" "10.0.0.3", ["bootstrap-1"]);
                 (OpAdd "uid-1" "10.0.0.5", ["bootstrap-1"; "uid-1"])]
              (NewReverseProxy (Some ["10.0.0.2"; "10.0.0.3"])))
           ["10.0.0.2"; "10.0.0.3"]
           [((1%nat, "10.0.0.3"), ["uid-1"]); ((0%nat, "10.0.0.2"), ["uid-1"])]).
  - reflexivity.
  - vm_compute. apply perm_swap.
Defined.


(** X17.  Along any script of accepts, [Listen] starts one handler for
    each connection that was accepted, in the order of the accepts, one
    handler on the nil connection for each error that is not temporary,
    and none for a temporary error. *)
Theorem X17_listen_dispatch (script : list Accept) :
  omap id (Listen None script).1 = accepted script
  ∧ length (filter (λ conn, conn = None) (Listen None script).1) = fatal_errors script
  ∧ length (Listen None script).1 = (length (accepted script) + fatal_errors script)%nat.
Proof.
  simpl. induction script as [|[conn | err] script (IH1 & IH2 & IH3)]; simpl; [done | |].
  - destruct (acceptLoop script) as [started st]. simpl in *.
    split; [f_equal; exact IH1 |]. split; [| by rewrite IH3].
    by rewrite filter_cons_False.
  - destruct (isNetError err && Temporary err); [done |].
    destruct (acceptLoop script) as [started st]. simpl in *.
    split; [exact IH1 |]. split; [| rewrite IH3; lia].
    by rewrite IH2.
Qed.

(** X18.  [IncrementBackend] has no guard like the one of
    [DecrementBackend]: on a backend whose count is [MaxUint32] it wraps
    the count to zero, and [setCurrent] then selects a backend without
    connections, as if that backend were idle. *)
Theorem X18_increment_wraps
    (order : list string) (uid : string) (r : ReverseProxy) (l : loc) (b : Backend) :
  (∀ l' b', objects r !! l' = Some b' → 0 ≤ Connections b' ≤ MaxUint32) →
  backends r !! uid = Some l →
  objects r !! l = Some b →
  Connections b = MaxUint32 →
  uid ∈ order →
  let r' := IncrementBackend order uid r in
  registered r' uid = Some (mkBackend (UID b) (Addr b) 0)
  ∧ ∃ p b', GetBackend r' = Some p ∧ deref r' p = Some b' ∧ Connections b' = 0.
Proof.
  intros Hrange Hl Hb Hmax Hin. simpl. unfold IncrementBackend. rewrite Hl, Hb.
  assert (Hwrap : uint32_incr (Connections b) = 0) by by rewrite Hmax.
  rewrite Hwrap. set (r1 := set_objects _ r).
  assert (Hb1 : objects r1 !! l = Some (mkBackend (UID b) (Addr b) 0)).
  { simpl. apply list_lookup_insert_eq. by eapply lookup_lt_Some. }
  assert (Hreg1 : registered r1 uid = Some (mkBackend (UID b) (Addr b) 0)).
  { apply registered_Some. eauto. }
  assert (Hrange1 : ∀ l' b', objects r1 !! l' = Some b' → 0 ≤ Connections b' ≤ MaxUint32).
  { intros l' b'. simpl. destruct (decide (l = l')) as [<- | Hne].
    - rewrite list_lookup_insert_eq by by eapply lookup_lt_Some.
      intros [= <-]. simpl. unfold MaxUint32. lia.
    - rewrite list_lookup_insert_ne by done. apply Hrange. }
  split; [done |].
  destruct (setCurrent_loop_inv r1 (current r1) order Hrange1) as [Hlow Hsel].
  specialize (Hlow _ _ Hin Hreg1).
  destruct Hsel as [[_ Hall] | (k & p & b' & Hk & Hp & Hb' & Hacc)].
  - specialize (Hall _ _ Hin Hreg1). simpl in Hall. unfold MaxUint32 in Hall. lia.
  - exists p, b'.
    change (GetBackend (setCurrent order r1))
      with (foldl (setCurrent_body r1) (MaxUint32, current r1) order).2.
    change (deref (setCurrent order r1) p) with (objects r1 !! p).
    rewrite Hacc. split; [done |]. split; [done |].
    rewrite Hacc in Hlow. simpl in Hlow. apply Hrange1 in Hb'. lia.
Qed.

Lemma X18_increment_wraps_witness :
  let r := mkReverseProxy 100 (Some 0%nat) {[ "a" := 0%nat ]} None background
             [mkBackend "a" "10.0.0.1" 4294967295] in
  let r' := IncrementBackend ["a"] "a" r in
  registered r' "a" = Some (mkBackend "a" "10.0.0.1" 0)
  ∧ ∃ p b', GetBackend r' = Some p ∧ deref r' p = Some b' ∧ Connections b' = 0.
Proof.
  apply (X18_increment_wraps ["a"] "a"
           (mkReverseProxy 100 (Some 0%nat) {[ "a" := 0%nat ]} None background
              [mkBackend "a" "10.0.0.1" 4294967295])
           0%nat (mkBackend "a" "10.0.0.1" 4294967295)).
  - intros [|l'] b'; simpl; [intros [= <-]; simpl; unfold MaxUint32; lia | done].
  - vm_compute. reflexivity.
  - reflexivity.
  - reflexivity.
  - apply list_elem_of_singleton. reflexivity.
Defined.
